(** * LinkedIn Ads connector: chunked analytics retrieval and reassembly

    A shallow embedding of [source_linkedin_ads/components.py] and the
    properties of its field chunker, date-range partitioner, campaign
    end-date resolver, per-partition cursor store, fragment merger and
    record normaliser. *)

From Stdlib Require Import ZArith List Ascii String DecimalString Lia Bool.
From stdpp Require Import base tactics option list gmap strings.
Import ListNotations.

Local Open Scope string_scope.

(** ** Python runtime: exceptions, results, ranges and slices *)

Module Py.

(** The exceptions the modelled code can raise. *)
Inductive exn : Type :=
| ValueError
| TypeError
| KeyError (key : string)
| OverflowError
| TooManyPartitionsError
| UpstreamRequestFailure.

(** A call either returns a value or raises. *)
Inductive result (A : Type) : Type :=
| Ok (a : A)
| Raise (e : exn).
Arguments Ok {A} a.
Arguments Raise {A} e.

Definition bind {A B} (r : result A) (k : A -> result B) : result B :=
  match r with
  | Ok a => k a
  | Raise e => Raise e
  end.

Definition is_ok {A} (r : result A) : bool :=
  match r with Ok _ => true | Raise _ => false end.

(** [len(range(start, stop, step))] for a non-zero step. *)
Definition range_len (start stop step : Z) : Z :=
  if ((0 <? step) && (start <? stop))%Z then (1 + (stop - 1 - start) / step)%Z
  else if ((step <? 0) && (stop <? start))%Z then (1 + (start - 1 - stop) / (- step))%Z
  else 0%Z.

(** [range(start, stop, step)]: a zero step is a [ValueError]. *)
Definition range (start stop step : Z) : result (list Z) :=
  if (step =? 0)%Z then Raise ValueError
  else Ok (map (fun i : nat => (start + Z.of_nat i * step)%Z)
               (seq 0 (Z.to_nat (range_len start stop step)))).

(** A slice bound: negative bounds count from the end, then the bound
    is clamped to the list. *)
Definition slice_bound (n i : Z) : Z :=
  let j := if (i <? 0)%Z then (i + n)%Z else i in
  Z.max 0 (Z.min n j).

(** [l[lo:hi]], a fresh list. *)
Definition slice {A} (l : list A) (lo hi : Z) : list A :=
  let n := Z.of_nat (length l) in
  let lo' := slice_bound n lo in
  let hi' := slice_bound n hi in
  take (Z.to_nat (hi' - lo')) (drop (Z.to_nat lo') l).

(** JSON-like values: what records, slices and partitions hold.
    Numbers are the integers (timestamps in milliseconds are). *)
#[warnings="-register-all"]
Inductive value : Type :=
| VNone
| VBool (b : bool)
| VInt (n : Z)
| VStr (s : string)
| VList (l : list value)
| VDict (d : gmap string value).

(** [v == s] for a string literal [s]: only an equal string is. *)
Definition eq_str (v : value) (s : string) : bool :=
  match v with
  | VStr s' => String.eqb s' s
  | _ => false
  end.

(** [v is None] *)
Definition is_None (v : value) : bool :=
  match v with
  | VNone => true
  | _ => false
  end.

(** [d[k]] on a mapping. *)
Definition getitem (d : gmap string value) (k : string) : result value :=
  match d !! k with
  | Some v => Ok v
  | None => Raise (KeyError k)
  end.

(** [s in t] on strings: [s] occurs in [t]. *)
Fixpoint occurs (s t : string) : bool :=
  String.prefix s t ||
  match t with
  | EmptyString => false
  | String _ t' => occurs s t'
  end.

(** [k in v] for a string [k]: key of a dict, element of a list,
    substring of a string; the other values are not containers. *)
Definition contains (k : string) (v : value) : result bool :=
  match v with
  | VDict d => Ok (bool_decide (is_Some (d !! k)))
  | VList l => Ok (existsb (fun x => eq_str x k) l)
  | VStr s => Ok (occurs k s)
  | _ => Raise TypeError
  end.

(** [v[k]] for a string [k]: only a dict can be indexed by a string. *)
Definition subscript (v : value) (k : string) : result value :=
  match v with
  | VDict d => getitem d k
  | _ => Raise TypeError
  end.

(** [num / den] rounded to the nearest integer, a tie to the even one. *)
Definition round_half_even (num den : Z) : Z :=
  let q := (num / den)%Z in
  let r := (num mod den)%Z in
  if (2 * r <? den)%Z then q
  else if (den <? 2 * r)%Z then (q + 1)%Z
  else if Z.even q then q else (q + 1)%Z.

(** [a / (1000 * 2^e)] as a numerator and a denominator. *)
Definition scaled_by_1000 (a e : Z) : Z * Z :=
  if (0 <=? e)%Z then (a, (1000 * 2 ^ e)%Z) else ((a * 2 ^ (- e))%Z, 1000%Z).

(** The exponent [e] of the double nearest to [a / 1000], for [a > 0]:
    [a / (1000 * 2^e)] has 53 bits before the point. *)
Definition double_exponent (a : Z) : Z :=
  let e0 := (Z.log2 a - 61)%Z in
  let '(num, den) := scaled_by_1000 a e0 in
  if (num / den <? 2 ^ 52)%Z then (e0 - 1)%Z else e0.

(** [int(n / 1000)] for an integer [n]: the true division gives the
    double nearest to the quotient (53 bits of mantissa, a tie to the
    even one) and raises [OverflowError] when that is no finite double;
    [int] truncates towards zero. *)
Definition int_truediv_1000 (n : Z) : result Z :=
  if (n =? 0)%Z then Ok 0%Z
  else
    let a := Z.abs n in
    let e := double_exponent a in
    let '(num, den) := scaled_by_1000 a e in
    let m := round_half_even num den in
    if (1024 <=? Z.log2 m + e)%Z then Raise OverflowError
    else Ok (Z.sgn n * (if (0 <=? e)%Z then m * 2 ^ e else m / 2 ^ (- e)))%Z.

(** [int(v / 1000)]. A bool divides as 0 or 1; what is no number cannot
    be divided. *)
Definition int_div_1000 (v : value) : result Z :=
  match v with
  | VInt n => int_truediv_1000 n
  | VBool _ => Ok 0%Z
  | _ => Raise TypeError
  end.

End Py.

#[export] Instance result_bind : MBind Py.result := fun _ _ k r => Py.bind r k.
#[export] Instance result_ret : MRet Py.result := fun _ a => Py.Ok a.

(** ** FieldChunker: [AnalyticsDatetimeBasedCursor.chunk_analytics_fields] *)

Module FieldChunker.
Import Py.

(** [if name not in chunk: chunk.append(name)] *)
Definition ensure_field (name : string) (chunk : list string) : list string :=
  if bool_decide (name ∈ chunk) then chunk else chunk ++ [name].

(** The two fields every chunk must carry. *)
Definition with_base_fields (chunk : list string) : list string :=
  ensure_field "pivotValues" (ensure_field "dateRange" chunk).

(** The chunks, in the order in which the generator yields them. *)
Definition chunk_analytics_fields (fields : list string) (fields_chunk_size : Z)
  : result (list (list string)) :=
  starts ← range 0 (Z.of_nat (length fields)) fields_chunk_size;
  let chunks := map (fun f => slice fields f (f + fields_chunk_size)) starts in
  Ok (map with_base_fields chunks).

(** A field that is not one of the two structural fields. *)
Definition metric (f : string) : bool :=
  negb (String.eqb f "dateRange") && negb (String.eqb f "pivotValues").

(** The groups of [s] consecutive elements of [l] that start at the
    first [k] multiples of [s]: what the slices of the generator are. *)
Definition groups_of {A} (s : nat) (l : list A) (k : nat) : list (list A) :=
  map (fun i => take s (drop (i * s) l)) (seq 0 k).

End FieldChunker.


(** ** DateRangePartitioner: [AnalyticsDatetimeBasedCursor._partition_daterange] *)

Module DateCursor.
Import Py.

(** A datetime is its position on the time line, counted in the
    resolution of the clock. *)
Definition datetime : Type := Z.

(** What the cursor takes from its configuration, from [utils.py] and
    from the framework's [DatetimeBasedCursor]. *)
Class Env : Type := {
  (** a [timedelta] or a calendar [Duration] *)
  Step : Type;
  ANALYTICS_FIELDS_V2 : list string;
  FIELDS_CHUNK_SIZE : Z;
  (** [self._partition_field_start.eval(self.config)] and its twin *)
  partition_field_start : string;
  partition_field_end : string;
  _cursor_granularity : Z;
  _step : Step;
  (** [start + step] *)
  _evaluate_next_start_date_safely : datetime -> Step -> datetime;
  _format_datetime : datetime -> string;
  day : datetime -> Z;
  month : datetime -> Z;
  year : datetime -> Z;
  (** [datetime.datetime.fromtimestamp(s, tz=self._timezone)] *)
  fromtimestamp : Z -> result datetime;
  (** [datetime.datetime.now(tz=self._timezone)] *)
  now : datetime;
  select_best_end_datetime : datetime;
  _calculate_earliest_possible_value : datetime -> datetime;
}.

(** Modelled from the spec: [DatetimeBasedCursor._get_date] called with
    [min], "compute the sub-interval end as
    min(next - one_granularity_unit, end)". *)
Definition _get_date_min (cursor_value default_date : datetime) : datetime :=
  Z.min cursor_value default_date.

(** One iteration's slice: the chunks of [field_date_chunks], and the
    window [(start, end_date)] they were formatted from. *)
Record date_slice : Type := {
  window : datetime * datetime;
  field_date_chunks : list (gmap string value);
}.

Section WithEnv.
Context `{Env}.

(** The dict literal of the inner loop; a later key replaces an
    equal earlier one. *)
Definition field_date_chunk (start end_date : datetime) (fields_set : list string)
  : gmap string value :=
  let fields := String.concat "," fields_set in
  <["end.year" := VInt (year end_date)]>
  (<["end.month" := VInt (month end_date)]>
  (<["end.day" := VInt (day end_date)]>
  (<["start.year" := VInt (year start)]>
  (<["start.month" := VInt (month start)]>
  (<["start.day" := VInt (day start)]>
  (<["fields" := VStr fields]>
  (<[partition_field_end := VStr (_format_datetime end_date)]>
  (<[partition_field_start := VStr (_format_datetime start)]> ∅)))))))).

(** The [while start <= end] loop. [None]: the loop is still running
    after [fuel] iterations. *)
Fixpoint _partition_daterange (fuel : nat) (start end_ : datetime) (step : Step)
  : option (result (list date_slice)) :=
  match fuel with
  | O => None
  | S fuel' =>
      if (start <=? end_)%Z then
        let next_start := _evaluate_next_start_date_safely start step in
        let end_date := _get_date_min (next_start - _cursor_granularity)%Z end_ in
        match FieldChunker.chunk_analytics_fields ANALYTICS_FIELDS_V2 FIELDS_CHUNK_SIZE with
        | Raise e => Some (Raise e)
        | Ok chunks =>
            let date_slice_with_fields := map (field_date_chunk start end_date) chunks in
            let slice := {| window := (start, end_date);
                            field_date_chunks := date_slice_with_fields |} in
            match _partition_daterange fuel' next_start end_ step with
            | None => None
            | Some (Raise e) => Some (Raise e)
            | Some (Ok dates) => Some (Ok (slice :: dates))
            end
        end
      else Some (Ok [])
  end.

(** *** EntityEndDateResolver: [CampaignAnalyticsDatetimeBasedCursor.stream_slices] *)

(** Where the end date of a campaign comes from. *)
Inductive end_choice : Type :=
| ScheduleEnd (ms : value)
| WallClock
| BestEnd.

(** The branches of [stream_slices] that choose the end date. *)
Definition choose_end (extra_fields : gmap string value) : result end_choice :=
  status ← getitem extra_fields "status";
  if eq_str status "COMPLETED" then
    run_schedule ← getitem extra_fields "runSchedule";
    has_end ← contains "end" run_schedule;
    if has_end : bool then
      run_schedule' ← getitem extra_fields "runSchedule";
      ms ← subscript run_schedule' "end";
      Ok (ScheduleEnd ms)
    else Ok WallClock
  else Ok BestEnd.

(** The value [end_datetime] is bound to in the chosen branch. *)
Definition end_datetime_of (c : end_choice) : result datetime :=
  match c with
  | ScheduleEnd ms => s ← int_div_1000 ms; fromtimestamp s
  | WallClock => Ok now
  | BestEnd => Ok select_best_end_datetime
  end.

Definition resolve_end_datetime (extra_fields : gmap string value) : result datetime :=
  c ← choose_end extra_fields;
  end_datetime_of c.

(** [stream_slices] of the cursor bound to a partition with these
    [extra_fields]. *)
Definition stream_slices (fuel : nat) (extra_fields : gmap string value)
  : option (result (list date_slice)) :=
  match resolve_end_datetime extra_fields with
  | Raise e => Some (Raise e)
  | Ok end_datetime =>
      let start_datetime := _calculate_earliest_possible_value end_datetime in
      if (start_datetime <? end_datetime)%Z then
        _partition_daterange fuel start_datetime end_datetime _step
      else Some (Ok [])
  end.

End WithEnv.

(** Windows [(s, e)] that follow one another from [a]: each starts where
    the one before it ended plus one granularity unit [g], and none is
    empty. *)
Fixpoint contiguous_from (g a : Z) (ws : list (datetime * datetime)) : Prop :=
  match ws with
  | [] => True
  | (s, e) :: rest => s = a /\ (s <= e)%Z /\ contiguous_from g (e + g)%Z rest
  end.

(** A sample cursor: time in hours, a step of so many hours, day
    granularity, three fields in chunks of two. *)
Definition sample_env : Env := {|
  Step := Z;
  ANALYTICS_FIELDS_V2 := ["clicks"; "impressions"; "costInUsd"];
  FIELDS_CHUNK_SIZE := 2%Z;
  partition_field_start := "start_date";
  partition_field_end := "end_date";
  _cursor_granularity := 24%Z;
  _step := 720%Z;
  _evaluate_next_start_date_safely := fun start step => (start + step)%Z;
  _format_datetime := fun t => DecimalString.NilZero.string_of_int (Z.to_int t);
  day := fun t => (t / 24)%Z;
  month := fun t => 1%Z;
  year := fun t => 1970%Z;
  fromtimestamp := fun s => Ok (s / 3600)%Z;
  now := 480000%Z;
  select_best_end_datetime := 479976%Z;
  _calculate_earliest_possible_value := fun e => Z.min 473352 e;
|}.

(** A completed campaign whose schedule ended at 1700000000000 ms. *)
Definition campaign_ended : gmap string value :=
  <["runSchedule" := VDict (<["end" := VInt 1700000000000]>
                            (<["start" := VInt 1690000000000]> ∅))]>
  (<["status" := VStr "COMPLETED"]> ∅).

(** A completed campaign whose schedule has no end. *)
Definition campaign_open_ended : gmap string value :=
  <["runSchedule" := VDict (<["start" := VInt 1690000000000]> ∅)]>
  (<["status" := VStr "COMPLETED"]> ∅).

(** A completed campaign that carries no schedule. *)
Definition campaign_unscheduled : gmap string value :=
  <["status" := VStr "COMPLETED"]> ∅.

(** A campaign that is still running. *)
Definition campaign_active : gmap string value :=
  <["runSchedule" := VDict (<["start" := VInt 1690000000000]> ∅)]>
  (<["status" := VStr "ACTIVE"]> ∅).

End DateCursor.

(** ** PerPartitionCursorStore: [AnalyticsPerPartitionCursor] *)

Module PartitionCursor.
Import Py.

(** A slice as the framework passes it around. *)
Record StreamSlice (C : Type) : Type := {
  partition : gmap string value;
  cursor_slice : C;
  extra_fields : gmap string value;
}.
Arguments partition {C} _.
Arguments cursor_slice {C} _.
Arguments extra_fields {C} _.

(** The cursors the factory makes, and what the framework's
    [PerPartitionCursor] provides. *)
Class Env : Type := {
  Cursor : Type;
  CursorSlice : Type;
  DEFAULT_MAX_PARTITIONS_NUMBER : nat;
  _NO_CURSOR_STATE : gmap string value;
  _to_partition_key : gmap string value -> string;
  _create_cursor : gmap string value -> Cursor;
  (** [cursor.partition = partition] *)
  set_partition : Cursor -> StreamSlice unit -> Cursor;
  (** [cursor.stream_slices()] *)
  cursor_stream_slices : Cursor -> result (list CursorSlice);
}.

Section WithEnv.
Context `{Env}.

(** The attributes of the store that the method reads or writes. *)
Record store : Type := {
  _cursor_per_partition : gmap string Cursor;
  _state_to_migrate_from : gmap string value;
}.

(** Modelled from the spec: [PerPartitionCursor._ensure_partition_limit],
    which is not part of the connector: it "enforces a maximum
    tracked-partition count before admitting a new partition --
    exceeding it fails with a TooManyPartitionsError", "not silent
    eviction". *)
Definition _ensure_partition_limit (st : store) : result unit :=
  if bool_decide (DEFAULT_MAX_PARTITIONS_NUMBER ≤ size (_cursor_per_partition st))%nat
  then Raise TooManyPartitionsError
  else Ok tt.

(** A mapping is true when it has an entry. *)
Definition truthy (m : gmap string value) : bool :=
  negb (bool_decide (m = ∅)).

(** The slices the generator yields, or the exception that ends it,
    and the store it leaves. *)
Definition generate_slices_from_partition (p : StreamSlice unit) (st : store)
  : result (list (StreamSlice CursorSlice)) * store :=
  match _ensure_partition_limit st with
  | Raise e => (Raise e, st)
  | Ok _ =>
      let key := _to_partition_key (partition p) in
      let '(cursor, tracked) :=
        match _cursor_per_partition st !! key with
        | Some cursor => (cursor, _cursor_per_partition st)
        | None =>
            let partition_state :=
              if truthy (_state_to_migrate_from st)
              then _state_to_migrate_from st
              else _NO_CURSOR_STATE in
            let cursor := _create_cursor partition_state in
            (cursor, <[key := cursor]> (_cursor_per_partition st))
        end in
      let cursor' := set_partition cursor p in
      let st' := {| _cursor_per_partition := <[key := cursor']> tracked;
                    _state_to_migrate_from := _state_to_migrate_from st |} in
      (slices ← cursor_stream_slices cursor';
       Ok (map (fun cs => {| partition := partition p;
                             cursor_slice := cs;
                             extra_fields := extra_fields p |}) slices),
       st')
  end.

End WithEnv.

(** A sample store: a cursor is the state it was made from and the
    partition bound to it, partitions are keyed by their campaign, two
    of them can be tracked, and a cursor makes one slice. *)
Definition sample_env : Env := {|
  Cursor := gmap string value * option (StreamSlice unit);
  CursorSlice := string;
  DEFAULT_MAX_PARTITIONS_NUMBER := 2;
  _NO_CURSOR_STATE := ∅;
  _to_partition_key := fun p =>
    match p !! "campaign_id" with
    | Some (VStr s) => s
    | _ => ""
    end;
  _create_cursor := fun state => (state, None);
  set_partition := fun cursor p => (cursor.1, Some p);
  cursor_stream_slices := fun cursor => Ok ["window"];
|}.

Definition sample_partition (campaign : string) : StreamSlice unit := {|
  partition := <["campaign_id" := VStr campaign]> ∅;
  cursor_slice := tt;
  extra_fields := <["status" := VStr "ACTIVE"]> ∅;
|}.

(** A store that tracks the campaigns "1" and "2". *)
Definition sample_full_store : @store sample_env := {|
  _cursor_per_partition :=
    <["2" := (∅, Some (sample_partition "2"))]>
    (<["1" := (∅, Some (sample_partition "1"))]> ∅);
  _state_to_migrate_from := ∅;
|}.

(** A store that tracks the campaign "1" only. *)
Definition sample_store : @store sample_env := {|
  _cursor_per_partition := <["1" := (∅, Some (sample_partition "1"))]> ∅;
  _state_to_migrate_from := ∅;
|}.

End PartitionCursor.

(** ** ResponseNormalizer: [LinkedInAdsRecordExtractor._date_time_to_rfc3339] *)

Module Extractor.
Import Py.

Class Env : Type := {
  (** [pendulum.parse(v).to_rfc3339_string()] *)
  parse_to_rfc3339 : value -> result string;
}.

Section WithEnv.
Context `{Env}.

(** One turn of the loop over the two field names. *)
Definition convert_item (item : string) (record : gmap string value)
  : result (gmap string value) :=
  match record !! item with
  | Some v =>
      if is_None v then Ok record
      else s ← parse_to_rfc3339 v; Ok (<[item := VStr s]> record)
  | None => Ok record
  end.

Definition _date_time_to_rfc3339 (record : gmap string value)
  : result (gmap string value) :=
  record' ← convert_item "lastModified" record;
  convert_item "created" record'.

End WithEnv.

(** A sample parser that knows one day. *)
Definition sample_env : Env := {|
  parse_to_rfc3339 := fun v =>
    match v with
    | VStr s =>
        if String.eqb s "2024-01-01" then Ok "2024-01-01T00:00:00+00:00"
        else if String.eqb s "2024-01-01T00:00:00+00:00" then Ok s
        else Raise ValueError
    | _ => Raise TypeError
    end;
|}.

Definition sample_record : gmap string value :=
  <["lastModified" := VStr "2024-01-01"]>
  (<["created" := VNone]> (<["id" := VInt 7]> ∅)).

(** *** [LinkedInAdsRecordExtractor.extract_records] *)

(** [transform_data] of [utils.py], a generator: the records it yields
    for the elements of a response and, if it does not finish, the
    exception that ends it. *)
Class Source : Type := {
  transform_data : value -> list (gmap string value) * option exn;
}.

Section WithSource.
Context `{Env} `{Source}.

(** The loop of the generator over the transformed records: what it
    yields, and the exception that ends it, if one does. *)
Fixpoint normalize_each (records : list (gmap string value)) (failure : option exn)
  : list (gmap string value) * option exn :=
  match records with
  | [] => ([], failure)
  | record :: rest =>
      match _date_time_to_rfc3339 record with
      | Raise e => ([], Some e)
      | Ok record' =>
          let '(yielded, e) := normalize_each rest failure in
          (record' :: yielded, e)
      end
  end.

(** [extract_records] on a response whose JSON body is [body];
    [body.get("elements")] is [None] without the key. *)
Definition extract_records (body : gmap string value)
  : list (gmap string value) * option exn :=
  let '(records, failure) := transform_data (default VNone (body !! "elements")) in
  normalize_each records failure.

End WithSource.

(** A sample [transform_data]: the elements as they are, the dicts among
    them up to the first element that is none. *)
Fixpoint sample_records (elements : list value) : list (gmap string value) * option exn :=
  match elements with
  | [] => ([], None)
  | VDict d :: rest => let '(rs, e) := sample_records rest in (d :: rs, e)
  | _ :: _ => ([], Some TypeError)
  end.

Definition sample_source : Source := {|
  transform_data := fun v =>
    match v with
    | VList l => sample_records l
    | _ => ([], Some TypeError)
    end;
|}.

End Extractor.

(** ** Field additions: [LinkedInAdsCustomRetriever._apply_transformations] *)

Module Selector.
Import Py.

(** The objects of the framework and their constructors:
    [AddedFieldDefinition(path=p, value=InterpolatedString(string=v, default=v))]
    and [AddFields(fields=fs)]. *)
Class Env : Type := {
  Transformation : Type;
  FieldDefinition : Type;
  AddedFieldDefinition : value -> value -> result FieldDefinition;
  AddFields : list FieldDefinition -> result Transformation;
}.

Section WithEnv.
Context `{Env}.

(** An element of [record_selector.transformations]: a declaration still
    in dict form, or an object. *)
Inductive entry : Type :=
| Declared (d : gmap string value)
| Built (t : Transformation).

(** What a [for] loop over the value goes through. *)
Definition iterate (v : value) : result (list value) :=
  match v with
  | VList l => Ok l
  | VStr s => Ok (map (fun c => VStr (String c "")) (list_ascii_of_string s))
  | VDict d => Ok (map (fun kv => VStr kv.1) (map_to_list d))
  | _ => Raise TypeError
  end.

(** The definition made from [field["path"]] and [field["value"]]. *)
Definition added_field (field : value) : result FieldDefinition :=
  path ← subscript field "path";
  val ← subscript field "value";
  AddedFieldDefinition path val.

(** The inner comprehension, field after field. *)
Fixpoint added_fields (fields : list value) : result (list FieldDefinition) :=
  match fields with
  | [] => Ok []
  | field :: rest =>
      f ← added_field field;
      fs ← added_fields rest;
      Ok (f :: fs)
  end.

(** The outer comprehension: one [AddFields] for each dict, the other
    elements are passed over. *)
Fixpoint build_all (transformations : list entry) : result (list Transformation) :=
  match transformations with
  | [] => Ok []
  | Built _ :: rest => build_all rest
  | Declared d :: rest =>
      fields ← iterate (default (VList []) (d !! "fields"));
      definitions ← added_fields fields;
      t ← AddFields definitions;
      ts ← build_all rest;
      Ok (t :: ts)
  end.

(** The value of [record_selector.transformations] after the call. *)
Definition _apply_transformations (transformations : list entry) : result (list entry) :=
  built ← build_all transformations;
  match built with
  | [] => Ok transformations
  | _ :: _ => Ok (map Built built)
  end.

(** The dicts of the list, in order. *)
Definition declarations (transformations : list entry) : list (gmap string value) :=
  omap (fun t => match t with Declared d => Some d | Built _ => None end) transformations.

(** [AddFields] made of the fields that the dict declares is [t]. *)
Definition built_from (d : gmap string value) (t : Transformation) : Prop :=
  exists fields definitions,
    iterate (default (VList []) (d !! "fields")) = Ok fields /\
    added_fields fields = Ok definitions /\
    AddFields definitions = Ok t.

(** The element is a dict. *)
Definition is_declared (t : entry) : bool :=
  match t with
  | Declared _ => true
  | Built _ => false
  end.

End WithEnv.

(** A sample framework: a field definition is its path and value and
    wants a path, a transformation is its field definitions. *)
Definition sample_env : Env := {|
  Transformation := list (value * value);
  FieldDefinition := value * value;
  AddedFieldDefinition := fun path val =>
    if is_None path then Raise ValueError else Ok (path, val);
  AddFields := fun definitions => Ok definitions;
|}.

Definition sample_declaration : gmap string value :=
  <["fields" := VList [VDict (<["value" := VStr "{{ stream_slice['end_date'] }}"]>
                              (<["path" := VList [VStr "end_date"]]> ∅))]]>
  (<["type" := VStr "AddFields"]> ∅).

End Selector.

(** ** FragmentMerger: [LinkedInAdsCustomRetriever.read_records] *)

Module Retriever.
Import Py.

Class Env : Type := {
  (** [str(v)], as an f-string formats a field *)
  py_str : value -> string;
  (** [super().read_records(records_schema, stream_slice=updated_slice)]
      once the transformations are installed: the fragments it yields
      and, if it does not finish, the exception that ends it. *)
  fetch : gmap string value -> gmap string value
          -> list (gmap string value) * option exn;
}.

(** [merged_records]: a [defaultdict(dict)], in insertion order. *)
Definition merged : Type := list (string * gmap string value).

(** [merged_records[key].update(record)] *)
Fixpoint update_at (key : string) (record : gmap string value) (m : merged) : merged :=
  match m with
  | [] => [(key, record ∪ ∅)]
  | (k, d) :: m' =>
      if decide (k = key) then (k, record ∪ d) :: m'
      else (k, d) :: update_at key record m'
  end.

(** The dict that [merged_records] holds under [key], if any. *)
Fixpoint lookup_merged (key : string) (m : merged) : option (gmap string value) :=
  match m with
  | [] => None
  | (k, d) :: m' => if decide (k = key) then Some d else lookup_merged key m'
  end.

(** The field by field union of fragments on top of [d], a later
    fragment on top of an earlier one. *)
Definition union_onto (d : gmap string value) (fragments : list (gmap string value))
  : gmap string value :=
  foldl (fun acc record => record ∪ acc) d fragments.

(** [{**field_slice}] *)
Definition as_mapping (v : value) : result (gmap string value) :=
  match v with
  | VDict d => Ok d
  | _ => Raise TypeError
  end.

(** What [for field_slice in cursor_slice.get("field_date_chunks", [])]
    iterates over. *)
Definition field_date_chunks (cursor_slice : gmap string value) : result (list value) :=
  match cursor_slice !! "field_date_chunks" with
  | None => Ok []
  | Some (VList l) => Ok l
  | Some (VStr s) => Ok (map (fun c => VStr (String c "")) (list_ascii_of_string s))
  | Some (VDict d) => Ok (map (fun kv => VStr kv.1) (map_to_list d))
  | Some _ => Raise TypeError
  end.

(** [StreamSlice(partition=p, cursor_slice=c)] of the framework: the
    constructor raises [ValueError] when a key is in both mappings. *)
Definition updated_stream_slice (p c : gmap string value)
  : result (PartitionCursor.StreamSlice (gmap string value)) :=
  if bool_decide (dom p ∩ dom c = ∅)
  then Ok {| PartitionCursor.partition := p;
             PartitionCursor.cursor_slice := c;
             PartitionCursor.extra_fields := ∅ |}
  else Raise ValueError.

Section WithEnv.
Context `{Env} `{Selector.Env}.

(** [f"{record['end_date']}-{record['pivotValues']}"] *)
Definition merge_key (record : gmap string value) : result string :=
  end_date ← getitem record "end_date";
  pivot ← getitem record "pivotValues";
  Ok (py_str end_date ++ "-" ++ py_str pivot).

(** The inner loop over the fragments of one chunk. *)
Fixpoint merge_fragments (fragments : list (gmap string value)) (m : merged)
  : result merged :=
  match fragments with
  | [] => Ok m
  | record :: rest =>
      key ← merge_key record;
      merge_fragments rest (update_at key record m)
  end.

(** The outer loop over the chunks of the slice. *)
Fixpoint read_chunks (partition : gmap string value) (chunks : list value) (m : merged)
  : result merged :=
  match chunks with
  | [] => Ok m
  | field_slice :: rest =>
      cursor_slice ← as_mapping field_slice;
      updated_slice ← updated_stream_slice partition cursor_slice;
      let '(fragments, failure) :=
        fetch (PartitionCursor.partition updated_slice)
              (PartitionCursor.cursor_slice updated_slice) in
      m' ← merge_fragments fragments m;
      match failure with
      | Some e => Raise e
      | None => read_chunks partition rest m'
      end
  end.

(** The records the generator yields and the exception that ends it, if
    one does; and [record_selector.transformations] as the call leaves
    it. *)
Definition read_records (transformations : list Selector.entry)
    (stream_slice : PartitionCursor.StreamSlice (gmap string value))
  : (list (gmap string value) * option exn) * list Selector.entry :=
  match Selector._apply_transformations transformations with
  | Raise e => (([], Some e), transformations)
  | Ok installed =>
      (match
         chunks ← field_date_chunks (PartitionCursor.cursor_slice stream_slice);
         read_chunks (PartitionCursor.partition stream_slice) chunks []
       with
       | Ok m => (map snd m, None)
       | Raise e => ([], Some e)
       end, installed)
  end.

(** The record's merge key is [key]. *)
Definition has_key (key : string) (record : gmap string value) : bool :=
  match merge_key record with
  | Ok k => String.eqb k key
  | Raise _ => false
  end.

(** The fragments that the chunks of a slice return, in the order in
    which the loops meet them. *)
Definition fragments_of (partition : gmap string value) (chunks : list (gmap string value))
  : list (gmap string value) :=
  concat (map (fun c => (fetch partition c).1) chunks).

(** Every entry of [merged_records] sits under its own merge key, and no
    key occurs twice. *)
Definition well_keyed (m : merged) : Prop :=
  NoDup (map fst m) /\ Forall (fun e => merge_key e.2 = Ok e.1) m.

(** [merged_records] holds, under the fragment's merge key, a dict with
    every field of the fragment. *)
Definition covers (m : merged) (fragment : gmap string value) : Prop :=
  exists key d,
    merge_key fragment = Ok key /\ lookup_merged key m = Some d /\
    forall f, is_Some (fragment !! f) -> is_Some (d !! f).

End WithEnv.

(** A sample retrieval: two chunks answer with one fragment each for the
    same day and campaign, a third one fails after its first fragment. *)
Definition sample_fragment (field : string) (n : Z) : gmap string value :=
  <[field := VInt n]>
  (<["pivotValues" := VStr "urn:li:sponsoredCampaign:1"]>
  (<["end_date" := VStr "2024-01-31"]> ∅)).

Definition sample_env : Env := {|
  py_str := fun v =>
    match v with
    | VStr s => s
    | _ => "None"
    end;
  fetch := fun partition chunk =>
    match chunk !! "fields" with
    | Some (VStr "clicks,dateRange,pivotValues") => ([sample_fragment "clicks" 5], None)
    | Some (VStr "impressions,dateRange,pivotValues") =>
        ([sample_fragment "impressions" 90], None)
    | Some (VStr "likes,dateRange,pivotValues") =>
        ([sample_fragment "likes" 1], Some UpstreamRequestFailure)
    | _ => ([], None)
    end;
|}.

(** A sample retrieval whose second fragment has no "end_date". *)
Definition sample_env_unkeyed : Env := {|
  py_str := @py_str sample_env;
  fetch := fun partition chunk =>
    ([sample_fragment "clicks" 5; <["clicks" := VInt 6]> ∅], None);
|}.

(** Two fragments of different days and pivots whose formatted keys are
    the same, and a retrieval that returns them. *)
Definition colliding_a : gmap string value :=
  <["clicks" := VInt 5]>
  (<["pivotValues" := VStr "31-x"]> (<["end_date" := VStr "2024-01"]> ∅)).

Definition colliding_b : gmap string value :=
  <["impressions" := VInt 90]>
  (<["pivotValues" := VStr "x"]> (<["end_date" := VStr "2024-01-31"]> ∅)).

Definition sample_env_colliding : Env := {|
  py_str := @py_str sample_env;
  fetch := fun partition chunk => ([colliding_a; colliding_b], None);
|}.

Definition sample_chunk (fields : string) : gmap string value :=
  <["fields" := VStr fields]> ∅.

Definition sample_slice (chunks : list (gmap string value))
  : PartitionCursor.StreamSlice (gmap string value) :=
  {| PartitionCursor.partition := <["campaign_id" := VStr "1"]> ∅;
     PartitionCursor.cursor_slice := <["field_date_chunks" := VList (map VDict chunks)]> ∅;
     PartitionCursor.extra_fields := ∅ |}.

End Retriever.

(** ** Transport: [SafeHttpClient._create_prepared_request] *)

Module HttpClient.
Import Py.

(** [c in s] for a character. *)
Fixpoint in_string (c : ascii) (s : string) : bool :=
  match s with
  | EmptyString => false
  | String c' s' => Ascii.eqb c c' || in_string c s'
  end.

(** The characters that [urllib.parse.quote] never escapes. *)
Definition ALWAYS_SAFE : string :=
  "ABCDEFGHIJKLMNOPQRSTUVWXYZabcdefghijklmnopqrstuvwxyz0123456789_.-~".

Definition hex_digit (n : N) : ascii :=
  match String.get (N.to_nat n) "0123456789ABCDEF" with
  | Some c => c
  | None => "0"%char
  end.

(** ['%{:02X}'.format(b)] *)
Definition percent_encode (c : ascii) : string :=
  let n := N_of_ascii c in
  String "%" (String (hex_digit (n / 16)) (String (hex_digit (n mod 16)) "")).

(** [quote(s, safe)]: byte after byte of the encoded string. *)
Fixpoint quote (s safe : string) : string :=
  match s with
  | EmptyString => EmptyString
  | String c s' =>
      (if in_string c ALWAYS_SAFE || in_string c safe
       then String c "" else percent_encode c)
      ++ quote s' safe
  end.

(** [s.replace(' ', '+')] *)
Fixpoint spaces_to_plus (s : string) : string :=
  match s with
  | EmptyString => EmptyString
  | String c s' => String (if Ascii.eqb c " " then "+"%char else c) (spaces_to_plus s')
  end.

(** [quote_plus(s, safe)] *)
Definition quote_plus (s safe : string) : string :=
  if in_string " " s then spaces_to_plus (quote s (safe ++ " "))
  else quote s safe.

(** [urlencode(query, safe=safe)] of a mapping from strings to strings,
    in the order of its items. *)
Definition urlencode (query : list (string * string)) (safe : string) : string :=
  String.concat "&"
    (map (fun kv => quote_plus kv.1 safe ++ "=" ++ quote_plus kv.2 safe) query).

(** One character of a key or value as it stands in the query: a space
    as a plus sign, a safe character as it is, any other one as its
    code in hexadecimal. *)
Definition encode_char (safe : string) (c : ascii) : string :=
  if Ascii.eqb c " " then "+"
  else if in_string c ALWAYS_SAFE || in_string c safe then String c ""
  else percent_encode c.

Fixpoint encode_chars (safe s : string) : string :=
  match s with
  | EmptyString => EmptyString
  | String c s' => encode_char safe c ++ encode_chars safe s'
  end.

(** What the client takes from the framework. *)
Class Env : Type := {
  BODY_REQUEST_METHODS : list string;
  (** [http_method.upper()] *)
  upper : string -> string;
  _dedupe_query_params :
    string -> option (list (string * string)) -> list (string * string);
}.

(** [data]: a string or a mapping. *)
Inductive body_data : Type :=
| DataStr (s : string)
| DataMap (m : gmap string value).

(** The keyword arguments of [requests.Request]. *)
Record request_args : Type := {
  method : string;
  url : string;
  headers : option (list (string * string));
  params : string;
  json : option (gmap string value);
  data : option body_data;
}.

(** The call returns the prepared request or raises
    [RequestBodyException]. *)
Inductive prepared : Type :=
| Prepared (args : request_args)
| RequestBodyException.

(** [if json] *)
Definition json_given (json : option (gmap string value)) : bool :=
  match json with
  | Some m => negb (bool_decide (m = ∅))
  | None => false
  end.

(** [if data] *)
Definition data_given (data : option body_data) : bool :=
  match data with
  | Some (DataStr s) => negb (String.eqb s "")
  | Some (DataMap m) => negb (bool_decide (m = ∅))
  | None => false
  end.

Section WithEnv.
Context `{Env}.

Definition _create_prepared_request
    (http_method url : string) (dedupe_query_params : bool)
    (headers params : option (list (string * string)))
    (json : option (gmap string value)) (data : option body_data) : prepared :=
  let query_params :=
    if dedupe_query_params then _dedupe_query_params url params
    else default [] params in
  let query_params := urlencode query_params "():,%" in
  let args body_json body_data :=
    {| method := http_method; url := url; headers := headers;
       params := query_params; json := body_json; data := body_data |} in
  if bool_decide (upper http_method ∈ BODY_REQUEST_METHODS) then
    if json_given json && data_given data then RequestBodyException
    else if json_given json then Prepared (args json None)
    else if data_given data then Prepared (args None data)
    else Prepared (args None None)
  else Prepared (args None None).

End WithEnv.

(** The characters that a query made by [urlencode] may hold: the ones
    that are safe, and the marks it puts itself. *)
Definition query_char (safe : string) (c : ascii) : bool :=
  in_string c ALWAYS_SAFE || in_string c safe || in_string c "%+=&".

(** Every character of [s] satisfies [p]. *)
Fixpoint all_chars (p : ascii -> bool) (s : string) : bool :=
  match s with
  | EmptyString => true
  | String c s' => p c && all_chars p s'
  end.

(** A sample framework: the methods that carry a body, upper case for
    the two methods written in lower case, no deduplication. *)
Definition sample_env : Env := {|
  BODY_REQUEST_METHODS := ["GET"; "POST"; "PUT"; "PATCH"];
  upper := fun m =>
    if String.eqb m "post" then "POST"
    else if String.eqb m "delete" then "DELETE"
    else m;
  _dedupe_query_params := fun url params => default [] params;
|}.

End HttpClient.

(** * Properties *)

Local Open Scope list_scope.

Section FieldChunkerProps.
Import Py FieldChunker.

Lemma groups_of_succ {A} s (l : list A) k :
  groups_of s l (S k) = take s l :: groups_of s (drop s l) k.
Proof.
  unfold groups_of. rewrite <- cons_seq, <- seq_shift. simpl. f_equal.
  rewrite map_map. apply map_ext. intros i.
  rewrite drop_drop. do 2 f_equal; lia.
Qed.

Lemma concat_groups_of {A} s k : forall l : list A,
  (length l <= k * s)%nat -> concat (groups_of s l k) = l.
Proof.
  induction k as [|k IH]; intros l Hlen.
  - destruct l; [reflexivity | simpl in Hlen; lia].
  - rewrite groups_of_succ. simpl. rewrite IH.
    + apply take_drop.
    + rewrite length_drop. lia.
Qed.

Lemma groups_of_length {A} s k (l : list A) :
  (0 < s)%nat -> (k * s < length l + s)%nat ->
  Forall (fun g => (0 < length g <= s)%nat) (groups_of s l k).
Proof.
  intros Hs Hk. unfold groups_of. apply Forall_map, Forall_forall.
  intros i Hi%list_elem_of_In. apply in_seq in Hi.
  rewrite length_take, length_drop. nia.
Qed.

Lemma slice_forward {A} (l : list A) (f s : Z) :
  (0 <= f)%Z -> (0 < s)%Z ->
  slice l f (f + s) = take (Z.to_nat s) (drop (Z.to_nat f) l).
Proof.
  intros Hf Hs. unfold slice, slice_bound.
  destruct (Z.ltb_spec f 0); [lia|].
  destruct (Z.ltb_spec (f + s) 0); [lia|].
  set (n := Z.of_nat (length l)).
  destruct (Z.le_gt_cases n f) as [Hge|Hlt].
  - rewrite (drop_ge l (Z.to_nat f)) by lia.
    rewrite (drop_ge l) by lia. by rewrite !take_nil.
  - replace (Z.max 0 (Z.min n f)) with f by lia.
    destruct (Z.le_gt_cases (f + s) n) as [Hin|Hout].
    + do 2 f_equal. lia.
    + rewrite !take_ge; [done | rewrite length_drop; lia | rewrite length_drop; lia].
Qed.

Lemma range_forward (n : nat) (s : Z) :
  (0 < s)%Z ->
  exists k : nat,
    range 0 (Z.of_nat n) s = Ok (map (fun i : nat => (Z.of_nat i * s)%Z) (seq 0 k)) /\
    (n <= k * Z.to_nat s)%nat /\ (k * Z.to_nat s < n + Z.to_nat s)%nat.
Proof.
  intros Hs. unfold range, range_len.
  destruct (Z.eqb_spec s 0); [lia|].
  destruct (Z.ltb_spec 0 s); [|lia]. simpl.
  destruct (Z.ltb_spec 0 (Z.of_nat n)) as [Hn|Hn].
  - exists (Z.to_nat (1 + (Z.of_nat n - 1 - 0) / s)). split; [done|].
    pose proof (Z.div_mod (Z.of_nat n - 1 - 0) s ltac:(lia)) as Hdm.
    pose proof (Z.mod_pos_bound (Z.of_nat n - 1 - 0) s Hs) as Hmod.
    assert (0 <= (Z.of_nat n - 1 - 0) / s)%Z by (apply Z.div_pos; lia).
    split; nia.
  - destruct (Z.ltb_spec s 0); [lia|]. simpl. exists 0%nat. split; [done|]. lia.
Qed.

Lemma ensure_field_app name c :
  exists extra, ensure_field name c = c ++ extra /\ (extra = [] \/ extra = [name]).
Proof.
  unfold ensure_field. case_bool_decide.
  - exists []. by rewrite app_nil_r; auto.
  - exists [name]. auto.
Qed.

Lemma ensure_field_elem name c : name ∈ ensure_field name c.
Proof.
  unfold ensure_field. case_bool_decide; [done|].
  apply elem_of_app. right. by apply list_elem_of_singleton.
Qed.

Lemma with_base_fields_app c :
  exists extra,
    with_base_fields c = c ++ extra /\ (length extra <= 2)%nat /\
    Forall (fun f => metric f = false) extra.
Proof.
  unfold with_base_fields.
  destruct (ensure_field_app "dateRange" c) as (e1 & -> & He1).
  destruct (ensure_field_app "pivotValues" (c ++ e1)) as (e2 & -> & He2).
  exists (e1 ++ e2). rewrite <- app_assoc. split; [done|].
  destruct He1 as [-> | ->], He2 as [-> | ->]; simpl; split; try lia;
    repeat constructor.
Qed.

Lemma with_base_fields_has_both c :
  "dateRange" ∈ with_base_fields c /\ "pivotValues" ∈ with_base_fields c.
Proof.
  unfold with_base_fields. split; [|apply ensure_field_elem].
  destruct (ensure_field_app "pivotValues" (ensure_field "dateRange" c)) as (e & -> & _).
  apply elem_of_app. left. apply ensure_field_elem.
Qed.

Lemma filter_metric_with_base_fields c :
  List.filter metric (with_base_fields c) = List.filter metric c.
Proof.
  destruct (with_base_fields_app c) as (extra & -> & _ & Hextra).
  rewrite List.filter_app.
  replace (List.filter metric extra) with (@nil string); [by rewrite app_nil_r|].
  induction Hextra as [|x l Hx _ IH]; simpl; [done|]. by rewrite Hx.
Qed.

Lemma concat_filter_metric gs :
  concat (map (List.filter metric) (map with_base_fields gs))
  = List.filter metric (concat gs).
Proof.
  induction gs as [|g gs IH]; simpl; [done|].
  by rewrite filter_metric_with_base_fields, IH, List.filter_app.
Qed.

Lemma count_occ_filter_metric l f :
  metric f = true ->
  count_occ string_dec (List.filter metric l) f = count_occ string_dec l f.
Proof.
  intros Hf. induction l as [|x l IH]; simpl; [done|].
  destruct (metric x) eqn:Hx; simpl; destruct (string_dec x f); subst; congruence.
Qed.

Lemma count_occ_concat_filter_metric (ls : list (list string)) f :
  metric f = true ->
  count_occ string_dec (concat (map (List.filter metric) ls)) f
  = count_occ string_dec (concat ls) f.
Proof.
  intros Hf. induction ls as [|l ls IH]; simpl; [done|].
  by rewrite !count_occ_app, IH, count_occ_filter_metric.
Qed.

Lemma chunk_analytics_fields_runs (fields : list string) (size : Z) :
  (0 < size)%Z ->
  chunk_analytics_fields fields size
  = Ok (map with_base_fields (groups_of (Z.to_nat size) fields
          (Z.to_nat (range_len 0 (Z.of_nat (length fields)) size)))).
Proof.
  intros Hs. unfold chunk_analytics_fields, range.
  destruct (Z.eqb_spec size 0); [lia|]. simpl. do 2 f_equal.
  unfold groups_of. rewrite map_map. apply map_ext. intros i.
  rewrite slice_forward by lia. do 2 f_equal. lia.
Qed.

(** C1. For every list of field names and every positive chunk size,
    [chunk_analytics_fields] yields the consecutive groups of the
    input, in order, each non-empty and no longer than the chunk size,
    each followed by whichever of "dateRange" and "pivotValues" it
    lacks: every chunk has at most [size + 2] fields and holds both
    structural fields, and the other fields of the chunks, read in
    order, are the other fields of the input, each as often as the
    input has it (so exactly once when the input names it once). *)
Theorem chunk_analytics_fields_partition (fields : list string) (size : Z) :
  (0 < size)%Z ->
  exists groups chunks,
    chunk_analytics_fields fields size = Ok chunks /\
    concat groups = fields /\
    Forall (fun g => (0 < Z.of_nat (length g) <= size)%Z) groups /\
    Forall2 (fun g c => exists extra, c = g ++ extra /\
               Forall (fun f => f = "dateRange" \/ f = "pivotValues") extra)
            groups chunks /\
    Forall (fun c => (Z.of_nat (length c) <= size + 2)%Z /\
                     "dateRange" ∈ c /\ "pivotValues" ∈ c) chunks /\
    concat (map (List.filter metric) chunks) = List.filter metric fields /\
    (Forall (fun f => metric f = true) fields ->
     concat (map (List.filter metric) chunks) = fields) /\
    (forall f, metric f = true ->
       count_occ string_dec (concat chunks) f = count_occ string_dec fields f).
Proof.
  intros Hs.
  destruct (range_forward (length fields) size Hs) as (k & Hrange & Hcover & Htight).
  set (s := Z.to_nat size) in *.
  assert (Hgroups :
    map (fun f => slice fields f (f + size))
        (map (fun i : nat => (Z.of_nat i * size)%Z) (seq 0 k))
    = groups_of s fields k).
  { unfold groups_of. rewrite map_map. apply map_ext. intros i.
    rewrite slice_forward by lia. do 2 f_equal. subst s. lia. }
  assert (Hlen : Forall (fun g => (0 < length g <= s)%nat) (groups_of s fields k)).
  { apply groups_of_length; subst s; lia. }
  exists (groups_of s fields k), (map with_base_fields (groups_of s fields k)).
  split.
  { unfold chunk_analytics_fields. rewrite Hrange. simpl. by rewrite Hgroups. }
  split; [by apply concat_groups_of|].
  split.
  { eapply Forall_impl; [exact Hlen|]. simpl. intros g Hg. subst s. lia. }
  split.
  { apply Forall2_fmap_r, Forall_Forall2_diag, Forall_forall. intros g _.
    destruct (ensure_field_app "dateRange" g) as (e1 & H1 & He1).
    destruct (ensure_field_app "pivotValues" (g ++ e1)) as (e2 & H2 & He2).
    exists (e1 ++ e2). unfold with_base_fields. rewrite H1, H2, <- app_assoc.
    split; [done|].
    destruct He1 as [-> | ->], He2 as [-> | ->]; simpl;
      repeat (apply List.Forall_cons; [by auto|]); apply List.Forall_nil. }
  split.
  { apply Forall_map. eapply Forall_impl; [exact Hlen|]. simpl. intros g Hg.
    split; [|apply with_base_fields_has_both].
    destruct (with_base_fields_app g) as (extra & -> & Hextra & _).
    rewrite length_app. subst s. lia. }
  split.
  { by rewrite concat_filter_metric, concat_groups_of. }
  split.
  { intros Hall. rewrite concat_filter_metric, concat_groups_of by done.
    apply forallb_filter_id, forallb_forall. intros f Hf.
    rewrite Forall_forall in Hall. by apply Hall, list_elem_of_In. }
  intros f Hf.
  rewrite <- count_occ_concat_filter_metric, concat_filter_metric by done.
  rewrite concat_groups_of by done. by apply count_occ_filter_metric.
Qed.

Lemma chunk_analytics_fields_partition_witness :
  exists chunks,
    chunk_analytics_fields ["clicks"; "dateRange"; "impressions"] 2 = Ok chunks /\
    Forall (fun c => (Z.of_nat (length c) <= 2 + 2)%Z) chunks.
Proof.
  destruct (chunk_analytics_fields_partition ["clicks"; "dateRange"; "impressions"] 2)
    as (groups & chunks & Hrun & _ & _ & _ & Hall & _); [lia|].
  exists chunks. split; [exact Hrun|].
  eapply Forall_impl; [exact Hall|]. simpl. tauto.
Defined.

(** Forty-five fields in chunks of twenty: twenty, twenty and five
    fields, each with the two structural fields added. *)
Example chunk_analytics_fields_45_by_20 :
  match chunk_analytics_fields
          (map (fun i => String (Ascii.ascii_of_nat (48 + i)) "") (seq 0 45)) 20 with
  | Ok chunks => map (@length string) chunks
  | Raise _ => []
  end = [22; 22; 7]%nat.
Proof. vm_compute. reflexivity. Qed.

(** A zero chunk size is a [ValueError], a negative one yields nothing. *)
Example chunk_analytics_fields_bad_size :
  chunk_analytics_fields ["clicks"; "likes"] 0 = Raise ValueError /\
  chunk_analytics_fields ["clicks"; "likes"] (-1) = Ok [].
Proof. split; reflexivity. Qed.

End FieldChunkerProps.

Section DateRangeProps.
Import Py DateCursor.
Context `{DateCursor.Env}.

Local Open Scope Z_scope.

Lemma contiguous_from_bounds g a ws :
  0 < g -> contiguous_from g a ws ->
  forall s e, (s, e) ∈ ws -> a <= s /\ s <= e.
Proof.
  intros Hg. revert a. induction ws as [|[s0 e0] ws IH]; simpl; intros a Hc s e Hin.
  - by apply elem_of_nil in Hin.
  - destruct Hc as (-> & Hle & Hrest).
    apply elem_of_cons in Hin as [[= -> ->] | Hin]; [lia|].
    specialize (IH _ Hrest _ _ Hin). lia.
Qed.

Lemma contiguous_from_ordered g a ws :
  0 < g -> contiguous_from g a ws ->
  forall (i j : nat) s1 e1 s2 e2,
    (i < j)%nat -> ws !! i = Some (s1, e1) -> ws !! j = Some (s2, e2) -> e1 < s2.
Proof.
  intros Hg. revert a. induction ws as [|[s0 e0] ws IH]; simpl; intros a Hc i j s1 e1 s2 e2 Hij Hi Hj.
  - done.
  - destruct Hc as (-> & Hle & Hrest).
    destruct j as [|j]; [lia|]. simpl in Hj. destruct i as [|i]; simpl in Hi.
    + injection Hi as -> ->.
      apply list_elem_of_lookup_2 in Hj.
      pose proof (contiguous_from_bounds _ _ _ Hg Hrest _ _ Hj). lia.
    + eapply (IH _ Hrest i j); eauto. lia.
Qed.

Lemma contiguous_from_cover g a ws sl el :
  0 < g -> contiguous_from g a ws -> last ws = Some (sl, el) ->
  forall t, a <= t < el + g -> exists s e, (s, e) ∈ ws /\ s <= t < e + g.
Proof.
  intros Hg. revert a. induction ws as [|[s0 e0] ws IH]; simpl; intros a Hc Hlast t Ht.
  - done.
  - destruct Hc as (-> & Hle & Hrest).
    destruct (Z.lt_ge_cases t (e0 + g)) as [Hin|Hout].
    + exists a, e0. split; [apply elem_of_cons; auto | lia].
    + destruct ws as [|w ws'].
      * simpl in Hlast. injection Hlast as -> ->. lia.
      * rewrite last_cons_cons in Hlast.
        destruct (IH _ Hrest Hlast t ltac:(lia)) as (s & e & Hse & Hr).
        exists s, e. split; [apply elem_of_cons; auto | done].
Qed.

Lemma partition_daterange_unfold fuel start end_ step :
  _partition_daterange (S fuel) start end_ step =
  if start <=? end_ then
    let next_start := _evaluate_next_start_date_safely start step in
    let end_date := _get_date_min (next_start - _cursor_granularity) end_ in
    match FieldChunker.chunk_analytics_fields ANALYTICS_FIELDS_V2 FIELDS_CHUNK_SIZE with
    | Raise e => Some (Raise e)
    | Ok chunks =>
        match _partition_daterange fuel next_start end_ step with
        | None => None
        | Some (Raise e) => Some (Raise e)
        | Some (Ok dates) =>
            Some (Ok ({| window := (start, end_date);
                         field_date_chunks := map (field_date_chunk start end_date) chunks |}
                      :: dates))
        end
    end
  else Some (Ok []).
Proof. reflexivity. Qed.

Lemma partition_daterange_stop fuel start end_ step :
  end_ < start -> _partition_daterange (S fuel) start end_ step = Some (Ok []).
Proof.
  intros Hlt. simpl. destruct (Z.leb_spec start end_); [lia | done].
Qed.

Lemma partition_daterange_runs end_ step :
  0 < FIELDS_CHUNK_SIZE -> 0 < _cursor_granularity ->
  (forall t, t + _cursor_granularity <= _evaluate_next_start_date_safely t step) ->
  forall (n : nat) start,
    start <= end_ -> end_ - start < Z.of_nat n * _cursor_granularity ->
    exists slices sl el,
      _partition_daterange (S n) start end_ step = Some (Ok slices) /\
      contiguous_from _cursor_granularity start (map window slices) /\
      last (map window slices) = Some (sl, el) /\
      end_ - _cursor_granularity < el <= end_ /\
      (((_cursor_granularity | end_ - start) ->
        (forall t, (_cursor_granularity | _evaluate_next_start_date_safely t step - t)) ->
        el = end_)).
Proof.
  intros Hsize Hg Hstep.
  pose proof (chunk_analytics_fields_runs ANALYTICS_FIELDS_V2 FIELDS_CHUNK_SIZE Hsize)
    as Hchunks.
  induction n as [|n IH]; intros start Hle Hn; [lia|].
  set (next := _evaluate_next_start_date_safely start step).
  pose proof (Hstep start) as Hnext. fold next in Hnext.
  rewrite partition_daterange_unfold. fold next.
  destruct (Z.leb_spec start end_); [|lia]. rewrite Hchunks. cbv zeta.
  destruct (Z.le_gt_cases next end_) as [Hmore|Hdone].
  - destruct (IH next Hmore ltac:(nia)) as (slices & sl & el & -> & Hc & Hlast & Hel & Hal).
    eexists _, sl, el. split; [reflexivity|]. cbn [map window].
    unfold _get_date_min.
    replace (Z.min (next - _cursor_granularity) end_) with (next - _cursor_granularity) by lia.
    split; [simpl; split; [done|]; split; [lia|]|].
    { by replace (next - _cursor_granularity + _cursor_granularity) with next by lia. }
    split.
    { destruct slices as [|sl0 slices']; [done|]. cbn [map] in *. by rewrite last_cons_cons. }
    split; [done|].
    intros Hdiv Hall. apply Hal; [|done].
    replace (end_ - next) with ((end_ - start) - (next - start)) by lia.
    apply Z.divide_sub_r; [done | apply Hall].
  - rewrite partition_daterange_stop by done.
    unfold _get_date_min.
    eexists _, start, _. split; [reflexivity|]. cbn [map window last].
    split; [simpl; split; [done|]; split; [lia | done]|].
    split; [reflexivity|]. split; [lia|].
    intros [q Hq] Hall. destruct (Hall start) as [r Hr]. fold next in Hr.
    assert (q < r) by nia. nia.
Qed.

Lemma contiguous_from_upper g a ws sl el :
  0 < g -> contiguous_from g a ws -> last ws = Some (sl, el) ->
  forall s e, (s, e) ∈ ws -> e <= el.
Proof.
  intros Hg. revert a. induction ws as [|[s0 e0] ws IH]; simpl; intros a Hc Hlast s e Hin.
  - done.
  - destruct Hc as (-> & Hle & Hrest).
    destruct ws as [|w ws'].
    + injection Hlast as -> ->. apply list_elem_of_singleton in Hin. by injection Hin as -> ->.
    + rewrite last_cons_cons in Hlast.
      apply elem_of_cons in Hin as [[= -> ->] | Hin]; [|by eapply IH].
      assert (Hl : (sl, el) ∈ w :: ws').
      { apply list_elem_of_lookup. exists (pred (length (w :: ws'))).
        by rewrite <- last_lookup. }
      pose proof (contiguous_from_bounds _ _ _ Hg Hrest _ _ Hl). lia.
Qed.

(** C2, as the code has it. For every start <= end and every step that
    moves a date forward by at least one granularity unit, the loop of
    [_partition_daterange] ends, and its windows are ordered, do not
    overlap, follow one another (each starts one granularity unit after
    the one before it ends), start at [start], stay within [start, end]
    and cover it; the last window ends in the granularity unit of [end],
    and at [end] itself when [end - start] and the step are whole
    numbers of granularity units. For start > end there is no slice. *)
Theorem partition_daterange_tiles (start end_ : datetime) (step : Step) :
  0 < FIELDS_CHUNK_SIZE -> 0 < _cursor_granularity ->
  (forall t, t + _cursor_granularity <= _evaluate_next_start_date_safely t step) ->
  (start <= end_ ->
   exists fuel slices sl el,
     _partition_daterange fuel start end_ step = Some (Ok slices) /\
     contiguous_from _cursor_granularity start (map window slices) /\
     (forall (i j : nat) s1 e1 s2 e2, (i < j)%nat ->
        map window slices !! i = Some (s1, e1) ->
        map window slices !! j = Some (s2, e2) -> e1 < s2) /\
     (forall s e, (s, e) ∈ map window slices -> start <= s /\ s <= e /\ e <= end_) /\
     (forall t, start <= t <= end_ ->
        exists s e, (s, e) ∈ map window slices /\ s <= t < e + _cursor_granularity) /\
     last (map window slices) = Some (sl, el) /\
     end_ - _cursor_granularity < el <= end_ /\
     ((_cursor_granularity | end_ - start) ->
      (forall t, (_cursor_granularity | _evaluate_next_start_date_safely t step - t)) ->
      el = end_)) /\
  (end_ < start ->
   forall fuel, _partition_daterange (S fuel) start end_ step = Some (Ok [])).
Proof.
  intros Hsize Hg Hstep. split; [|intros; by apply partition_daterange_stop].
  intros Hle.
  destruct (partition_daterange_runs end_ step Hsize Hg Hstep
              (S (Z.to_nat (end_ - start))) start Hle ltac:(nia))
    as (slices & sl & el & Hrun & Hc & Hlast & Hel & Hal).
  exists (S (S (Z.to_nat (end_ - start)))), slices, sl, el.
  split; [done|]. split; [done|].
  split; [by eapply contiguous_from_ordered|].
  split.
  { intros s e Hin.
    pose proof (contiguous_from_bounds _ _ _ Hg Hc _ _ Hin).
    pose proof (contiguous_from_upper _ _ _ _ _ Hg Hc Hlast _ _ Hin). lia. }
  split; [|done].
  intros t Ht. eapply contiguous_from_cover; eauto. lia.
Qed.

End DateRangeProps.

Section DateRangeSample.
Import Py DateCursor.
Local Open Scope Z_scope.

(** Sixty days in steps of thirty, at day granularity, in hours. *)
Example partition_daterange_sample_windows :
  match @_partition_daterange sample_env 5 0 1440 720 with
  | Some (Ok slices) => map window slices
  | _ => []
  end = [(0, 696); (720, 1416); (1440, 1440)].
Proof. vm_compute. reflexivity. Qed.

Lemma partition_daterange_tiles_witness :
  0 < @FIELDS_CHUNK_SIZE sample_env /\
  0 < @_cursor_granularity sample_env /\
  exists fuel slices,
    @_partition_daterange sample_env fuel 0 1440 720 = Some (Ok slices) /\
    contiguous_from 24 0 (map window slices).
Proof.
  split; [reflexivity|]. split; [reflexivity|].
  destruct (@partition_daterange_tiles sample_env 0 1440 720) as [Hrun _].
  - reflexivity.
  - reflexivity.
  - intros t. simpl. lia.
  - destruct Hrun as (fuel & slices & sl & el & Hrun & Hc & _); [lia|].
    exists fuel, slices. split; [exact Hrun | exact Hc].
Defined.

(** C2 as stated fails: a zero step never leaves the loop, and an end
    that is not a whole number of granularity units after the start is
    not the end of the last window. *)
Lemma partition_daterange_counterexample :
  ~ (exists fuel slices, @_partition_daterange sample_env fuel 0 0 0 = Some (Ok slices)) /\
  ~ (exists fuel slices sl,
       @_partition_daterange sample_env fuel 0 36 48 = Some (Ok slices) /\
       last (map window slices) = Some (sl, 36)).
Proof.
  split.
  - intros (fuel & slices & Hrun).
    assert (Hloop : forall n, @_partition_daterange sample_env n 0 0 0 = None).
    { induction n as [|n IH]; [reflexivity|].
      rewrite partition_daterange_unfold. cbv zeta.
      change (@_evaluate_next_start_date_safely sample_env 0 0) with 0.
      rewrite IH. reflexivity. }
    by rewrite Hloop in Hrun.
  - intros (fuel & slices & sl & Hrun & Hlast).
    destruct fuel as [|[|fuel]]; [done | done |].
    rewrite partition_daterange_unfold in Hrun. cbv zeta in Hrun.
    change (@_evaluate_next_start_date_safely sample_env 0 48) with 48 in Hrun.
    rewrite partition_daterange_stop in Hrun by lia.
    vm_compute in Hrun. injection Hrun as <-. simpl in Hlast. congruence.
Qed.

End DateRangeSample.

Section TrueDivisionProps.
Import Py.
Local Open Scope Z_scope.

Lemma round_half_even_bounds num den :
  0 < den -> num / den <= round_half_even num den <= num / den + 1.
Proof.
  intros Hden. unfold round_half_even.
  destruct (_ <? _); [lia|]. destruct (_ <? _); [lia|]. destruct (Z.even _); lia.
Qed.

Lemma round_half_even_up num den :
  0 < den -> round_half_even num den = num / den + 1 -> den <= 2 * (num mod den).
Proof.
  intros Hden. unfold round_half_even.
  destruct (Z.ltb_spec (2 * (num mod den)) den); [lia|].
  intros _. lia.
Qed.

Lemma round_scaled_trunc a k :
  0 <= a -> 9 <= k ->
  round_half_even (a * 2 ^ k) 1000 / 2 ^ k = a / 1000.
Proof.
  intros Ha Hk.
  assert (HP : 512 <= 2 ^ k).
  { change 512 with (2 ^ 9). apply Z.pow_le_mono_r; lia. }
  set (P := 2 ^ k) in *.
  pose proof (Z.div_mod a 1000 ltac:(lia)) as Ha'.
  pose proof (Z.mod_pos_bound a 1000 ltac:(lia)) as Hr.
  set (q := a / 1000) in *. set (r := a mod 1000) in *.
  pose proof (round_half_even_bounds (a * P) 1000 ltac:(lia)) as [Hlo Hhi].
  pose proof (round_half_even_up (a * P) 1000 ltac:(lia)) as Hup.
  pose proof (Z.div_mod (a * P) 1000 ltac:(lia)) as HN.
  pose proof (Z.mod_pos_bound (a * P) 1000 ltac:(lia)) as Hs.
  set (m := round_half_even (a * P) 1000) in *.
  set (t := a * P / 1000) in *. set (s := (a * P) mod 1000) in *.
  symmetry. apply Z.div_unique with (r := m - q * P).
  - left. split.
    + nia.
    + destruct (Z.eq_dec m (t + 1)) as [Heq|Hne].
      * specialize (Hup Heq). nia.
      * nia.
  - lia.
Qed.

Lemma double_exponent_small a :
  0 < a < 17592186044416000 -> double_exponent a <= -9.
Proof.
  intros Ha.
  assert (Hla : Z.log2 a < 54).
  { apply Z.log2_lt_pow2; [lia|]. change (2 ^ 54) with 18014398509481984. lia. }
  pose proof (Z.log2_nonneg a) as Hla0.
  unfold double_exponent, scaled_by_1000.
  destruct (Z.leb_spec 0 (Z.log2 a - 61)); [lia|].
  destruct (Z.ltb_spec (a * 2 ^ (- (Z.log2 a - 61)) / 1000) (2 ^ 52)) as [_|Hbig]; [lia|].
  destruct (Z.eq_dec (Z.log2 a) 53) as [Heq|Hne]; [|lia].
  exfalso. rewrite Heq in Hbig. change (- (53 - 61)) with 8 in Hbig.
  change (2 ^ 8) with 256 in Hbig. change (2 ^ 52) with 4503599627370496 in Hbig.
  assert (a * 256 / 1000 < 4503599627370496); [|lia].
  apply Z.div_lt_upper_bound; lia.
Qed.

Lemma int_truediv_1000_exact n :
  Z.abs n < 17592186044416000 -> int_truediv_1000 n = Ok (Z.quot n 1000).
Proof.
  intros Hn. unfold int_truediv_1000.
  destruct (Z.eqb_spec n 0) as [->|Hnz]; [reflexivity|].
  assert (Ha : 0 < Z.abs n < 17592186044416000) by lia.
  pose proof (double_exponent_small _ Ha) as He.
  set (a := Z.abs n) in *. set (e := double_exponent a) in *.
  unfold scaled_by_1000. destruct (Z.leb_spec 0 e); [lia|].
  assert (Hk : 9 <= - e) by lia.
  assert (Hpow : 0 < 2 ^ (- e)) by (apply Z.pow_pos_nonneg; lia).
  pose proof (round_half_even_bounds (a * 2 ^ (- e)) 1000 ltac:(lia)) as [Hlo Hhi].
  assert (Hm : round_half_even (a * 2 ^ (- e)) 1000 <= a * 2 ^ (- e)).
  { assert (512 <= 2 ^ (- e)).
    { change 512 with (2 ^ 9). apply Z.pow_le_mono_r; lia. }
    assert (a * 2 ^ (- e) / 1000 <= a * 2 ^ (- e) / 2).
    { apply Z.div_le_compat_l; nia. }
    assert (a * 2 ^ (- e) / 2 + 1 <= a * 2 ^ (- e)); [|lia].
    assert (2 <= a * 2 ^ (- e)) by nia.
    pose proof (Z.div_mod (a * 2 ^ (- e)) 2 ltac:(lia)).
    pose proof (Z.mod_pos_bound (a * 2 ^ (- e)) 2 ltac:(lia)). lia. }
  assert (Hlog : Z.log2 (round_half_even (a * 2 ^ (- e)) 1000) + e < 1024).
  { pose proof (Z.log2_le_mono _ _ Hm) as Hmono.
    rewrite Z.log2_mul_pow2 in Hmono by lia.
    assert (Z.log2 a < 54).
    { apply Z.log2_lt_pow2; [lia|]. change (2 ^ 54) with 18014398509481984. lia. }
    lia. }
  destruct (Z.leb_spec 1024 (Z.log2 (round_half_even (a * 2 ^ (- e)) 1000) + e)); [lia|].
  f_equal. rewrite round_scaled_trunc by lia.
  rewrite Z.quot_div by lia. subst a.
  change (Z.sgn 1000) with 1. change (Z.abs 1000) with 1000. lia.
Qed.

(** Where the double nearest to the quotient is the next integer, the
    code passes that integer on. *)
Example int_truediv_1000_rounds :
  int_truediv_1000 1700000000999 = Ok 1700000000 /\
  int_truediv_1000 (-1999) = Ok (-1) /\
  int_truediv_1000 17592186044416999 = Ok 17592186044417 /\
  int_truediv_1000 (10 ^ 400) = Raise OverflowError.
Proof. repeat split; vm_compute; reflexivity. Qed.

End TrueDivisionProps.

Section CampaignProps.
Import Py DateCursor.
Context `{DateCursor.Env}.

Lemma eq_str_true v s : eq_str v s = true <-> v = VStr s.
Proof.
  destruct v; simpl; try (split; [discriminate | intros [=]]).
  rewrite String.eqb_eq. split; [by intros -> | by intros [= ->]].
Qed.

Lemma getitem_Some (d : gmap string value) k v : d !! k = Some v -> getitem d k = Ok v.
Proof. unfold getitem. by intros ->. Qed.

Lemma getitem_None (d : gmap string value) k : d !! k = None -> getitem d k = Raise (KeyError k).
Proof. unfold getitem. by intros ->. Qed.

(** C6, as the code has it. For a partition that carries a status and,
    when completed, a schedule: a completed campaign whose schedule has
    an end in milliseconds, less than 2^44 * 1000 of them before or
    after the epoch, ends at that instant, in whole seconds, read in the
    configured timezone; a completed campaign whose schedule has no end
    ends now; a campaign that is not completed ends where the
    framework's best end date is. *)
Theorem resolve_end_datetime_cases (extra_fields : gmap string value) :
  (forall schedule ms,
     extra_fields !! "status" = Some (VStr "COMPLETED") ->
     extra_fields !! "runSchedule" = Some (VDict schedule) ->
     schedule !! "end" = Some (VInt ms) ->
     (Z.abs ms < 17592186044416000)%Z ->
     resolve_end_datetime extra_fields = fromtimestamp (Z.quot ms 1000)) /\
  (forall schedule,
     extra_fields !! "status" = Some (VStr "COMPLETED") ->
     extra_fields !! "runSchedule" = Some (VDict schedule) ->
     schedule !! "end" = None ->
     resolve_end_datetime extra_fields = Ok now) /\
  (forall status,
     extra_fields !! "status" = Some status ->
     status <> VStr "COMPLETED" ->
     resolve_end_datetime extra_fields = Ok select_best_end_datetime).
Proof.
  unfold resolve_end_datetime, choose_end. repeat split.
  - intros schedule ms Hst Hrs Hend Hms.
    rewrite (getitem_Some _ _ _ Hst), (getitem_Some _ _ _ Hrs). simpl.
    rewrite Hend. rewrite bool_decide_eq_true_2 by eauto. simpl.
    rewrite (getitem_Some _ _ _ Hend). simpl.
    by rewrite (int_truediv_1000_exact ms Hms).
  - intros schedule Hst Hrs Hend.
    rewrite (getitem_Some _ _ _ Hst), (getitem_Some _ _ _ Hrs). simpl.
    rewrite Hend. rewrite bool_decide_eq_false_2; [reflexivity|].
    by intros [? ?].
  - intros status Hst Hne.
    rewrite (getitem_Some _ _ _ Hst). simpl.
    destruct (eq_str status "COMPLETED") eqn:Heq; [|reflexivity].
    by apply eq_str_true in Heq.
Qed.

Lemma resolve_end_datetime_Raise_stream_slices fuel extra_fields e :
  resolve_end_datetime extra_fields = Raise e ->
  stream_slices fuel extra_fields = Some (Raise e).
Proof. unfold stream_slices. by intros ->. Qed.

(** C7. When the end date of a partition resolves and the earliest
    possible start is not strictly before it, [stream_slices] returns
    no slice and raises nothing. *)
Theorem stream_slices_empty_window (fuel : nat) (extra_fields : gmap string value)
    (end_datetime : datetime) :
  resolve_end_datetime extra_fields = Ok end_datetime ->
  ~ (_calculate_earliest_possible_value end_datetime < end_datetime)%Z ->
  stream_slices fuel extra_fields = Some (Ok []).
Proof.
  intros Hend Hge. unfold stream_slices. rewrite Hend.
  destruct (Z.ltb_spec (_calculate_earliest_possible_value end_datetime) end_datetime);
    [lia | reflexivity].
Qed.

(** C10. Without a "status" key, and for a completed campaign without a
    "runSchedule" key, [stream_slices] raises [KeyError] and makes no
    slice; the end date is the wall clock exactly when the campaign is
    completed and its "runSchedule" is there and holds no "end". *)
Theorem stream_slices_missing_keys (extra_fields : gmap string value) :
  (extra_fields !! "status" = None ->
   forall fuel, stream_slices fuel extra_fields = Some (Raise (KeyError "status"))) /\
  (extra_fields !! "status" = Some (VStr "COMPLETED") ->
   extra_fields !! "runSchedule" = None ->
   forall fuel, stream_slices fuel extra_fields = Some (Raise (KeyError "runSchedule"))) /\
  (choose_end extra_fields = Ok WallClock <->
   extra_fields !! "status" = Some (VStr "COMPLETED") /\
   exists run_schedule,
     extra_fields !! "runSchedule" = Some run_schedule /\
     contains "end" run_schedule = Ok false).
Proof.
  split; [|split; [|split]].
  - intros Hst fuel. apply resolve_end_datetime_Raise_stream_slices.
    unfold resolve_end_datetime, choose_end. by rewrite (getitem_None _ _ Hst).
  - intros Hst Hrs fuel. apply resolve_end_datetime_Raise_stream_slices.
    unfold resolve_end_datetime, choose_end.
    by rewrite (getitem_Some _ _ _ Hst), (getitem_None _ _ Hrs).
  - unfold choose_end, getitem.
    destruct (extra_fields !! "status") as [status|]; simpl; [|done].
    destruct (eq_str status "COMPLETED") eqn:Heq; [|done].
    apply eq_str_true in Heq as ->.
    destruct (extra_fields !! "runSchedule") as [rs|]; simpl; [|done].
    intros Hc. split; [done|]. exists rs. split; [done|].
    destruct (contains "end" rs) as [[|]|]; simpl in Hc; try done.
    by destruct (subscript rs "end").
  - intros (Hst & rs & Hrs & Hc). unfold choose_end.
    rewrite (getitem_Some _ _ _ Hst), (getitem_Some _ _ _ Hrs). simpl.
    by rewrite Hc.
Qed.

End CampaignProps.

Section CampaignSample.
Import Py DateCursor.

Lemma resolve_end_datetime_cases_witness :
  @resolve_end_datetime sample_env campaign_ended = Ok 472222%Z /\
  @resolve_end_datetime sample_env campaign_open_ended = Ok 480000%Z /\
  @resolve_end_datetime sample_env campaign_active = Ok 479976%Z.
Proof.
  split; [|split].
  - apply (proj1 (@resolve_end_datetime_cases sample_env campaign_ended)
             (<["end" := VInt 1700000000000]> (<["start" := VInt 1690000000000]> ∅))
             1700000000000%Z); [reflexivity | reflexivity | reflexivity | simpl; lia].
  - apply (proj1 (proj2 (@resolve_end_datetime_cases sample_env campaign_open_ended))
             (<["start" := VInt 1690000000000]> ∅)); reflexivity.
  - apply (proj2 (proj2 (@resolve_end_datetime_cases sample_env campaign_active))
             (VStr "ACTIVE")); [reflexivity | discriminate].
Defined.

(** C6 as stated fails: a completed campaign with no schedule at all has
    no schedule end timestamp, yet its end date is not the wall clock:
    the lookup of "runSchedule" raises. And an end so far away that the
    division by 1000 is rounded is not converted to its own second. *)
Lemma resolve_end_datetime_counterexample :
  campaign_unscheduled !! "status" = Some (VStr "COMPLETED") /\
  campaign_unscheduled !! "runSchedule" = None /\
  @resolve_end_datetime sample_env campaign_unscheduled = Raise (KeyError "runSchedule") /\
  @resolve_end_datetime sample_env campaign_unscheduled <> Ok (@now sample_env) /\
  int_div_1000 (VInt 17592186044416999) = Ok 17592186044417%Z /\
  Z.quot 17592186044416999 1000 = 17592186044416%Z.
Proof.
  repeat split; try reflexivity; try discriminate.
Qed.

Lemma stream_slices_empty_window_witness :
  @resolve_end_datetime sample_env campaign_ended = Ok 472222%Z /\
  ~ (@_calculate_earliest_possible_value sample_env 472222 < 472222)%Z /\
  @stream_slices sample_env 5 campaign_ended = Some (Ok []).
Proof.
  assert (Hend : @resolve_end_datetime sample_env campaign_ended = Ok 472222%Z)
    by reflexivity.
  assert (Hge : ~ (@_calculate_earliest_possible_value sample_env 472222 < 472222)%Z)
    by (simpl; lia).
  split; [exact Hend|]. split; [exact Hge|].
  exact (@stream_slices_empty_window sample_env 5 campaign_ended 472222%Z Hend Hge).
Defined.

Lemma stream_slices_missing_keys_witness :
  @stream_slices sample_env 5 ∅ = Some (Raise (KeyError "status")) /\
  @stream_slices sample_env 5 campaign_unscheduled = Some (Raise (KeyError "runSchedule")).
Proof.
  split.
  - apply (proj1 (@stream_slices_missing_keys sample_env ∅)). reflexivity.
  - apply (proj1 (proj2 (@stream_slices_missing_keys sample_env campaign_unscheduled)));
      reflexivity.
Defined.

End CampaignSample.

Section PartitionCursorProps.
Import Py PartitionCursor.
Context `{PartitionCursor.Env}.

(** C5. With as many partitions tracked as the limit allows, asking for
    the slices of a partition that is not tracked raises
    [TooManyPartitionsError]; the check comes first, so the store is
    left as it was: nothing is evicted and the partition is not
    admitted. *)
Theorem generate_slices_at_limit (p : StreamSlice unit) (st : store) :
  size (_cursor_per_partition st) = DEFAULT_MAX_PARTITIONS_NUMBER ->
  _cursor_per_partition st !! _to_partition_key (partition p) = None ->
  generate_slices_from_partition p st = (Raise TooManyPartitionsError, st).
Proof.
  intros Hfull _. unfold generate_slices_from_partition, _ensure_partition_limit.
  rewrite bool_decide_eq_true_2; [reflexivity | lia].
Qed.

(** Below the limit a new partition is admitted: its cursor is tracked
    afterwards, with the partition bound to it. *)
Lemma generate_slices_admits (p : StreamSlice unit) (st : store) :
  (size (_cursor_per_partition st) < DEFAULT_MAX_PARTITIONS_NUMBER)%nat ->
  _cursor_per_partition st !! _to_partition_key (partition p) = None ->
  exists state,
    _cursor_per_partition (generate_slices_from_partition p st).2
      !! _to_partition_key (partition p)
    = Some (set_partition (_create_cursor state) p).
Proof.
  intros Hroom Hnew. unfold generate_slices_from_partition, _ensure_partition_limit.
  rewrite bool_decide_eq_false_2 by lia. rewrite Hnew. simpl.
  eexists. by rewrite lookup_insert_eq.
Qed.

End PartitionCursorProps.

Lemma generate_slices_at_limit_witness :
  size (PartitionCursor._cursor_per_partition PartitionCursor.sample_full_store) = 2%nat /\
  @PartitionCursor.generate_slices_from_partition PartitionCursor.sample_env
     (PartitionCursor.sample_partition "3") PartitionCursor.sample_full_store
  = (Py.Raise Py.TooManyPartitionsError, PartitionCursor.sample_full_store).
Proof.
  split; [reflexivity|].
  apply (@generate_slices_at_limit PartitionCursor.sample_env); reflexivity.
Defined.

Section ExtractorProps.
Import Py Extractor.
Context `{Extractor.Env}.

(** What one turn of the loop does to the field it looks at. *)
Lemma convert_item_spec item (record out : gmap string value) :
  convert_item item record = Ok out ->
  (forall k, k <> item -> out !! k = record !! k) /\
  match record !! item with
  | None => out = record
  | Some v =>
      if is_None v then out = record
      else exists s, parse_to_rfc3339 v = Ok s /\ out = <[item := VStr s]> record
  end.
Proof.
  unfold convert_item. destruct (record !! item) as [v|] eqn:Hv.
  - destruct (is_None v) eqn:Hn.
    + by intros [= <-].
    + destruct (parse_to_rfc3339 v) as [s|e] eqn:Hp; simpl; [|done].
      intros [= <-]. split; [|by exists s].
      intros k Hk. by rewrite lookup_insert_ne.
  - by intros [= <-].
Qed.

Lemma convert_item_runs item (record : gmap string value) :
  (forall v, record !! item = Some v -> is_None v = false ->
             is_ok (parse_to_rfc3339 v) = true) ->
  exists out, convert_item item record = Ok out.
Proof.
  intros Hp. unfold convert_item. destruct (record !! item) as [v|]; [|eauto].
  destruct (is_None v) eqn:Hn; [eauto|].
  specialize (Hp v eq_refl Hn).
  destruct (parse_to_rfc3339 v); [simpl; eauto | done].
Qed.

Lemma convert_item_fixed item (record : gmap string value) :
  (forall v s, parse_to_rfc3339 v = Ok s -> parse_to_rfc3339 (VStr s) = Ok s) ->
  (forall v, record !! item = Some v -> is_None v = false ->
             exists v0 s, parse_to_rfc3339 v0 = Ok s /\ v = VStr s) ->
  convert_item item record = Ok record.
Proof.
  intros Hfix Hdone. unfold convert_item.
  destruct (record !! item) as [v|] eqn:Hv; [|done].
  destruct (is_None v) eqn:Hn; [done|].
  destruct (Hdone v eq_refl Hn) as (v0 & s & Hp & ->).
  rewrite (Hfix _ _ Hp). simpl. by rewrite insert_id.
Qed.

(** C9. On a record whose "lastModified" and "created" fields, where
    present and not null, can be parsed, [_date_time_to_rfc3339]
    returns; a field of the two that is absent stays absent and one that
    is null stays null, the others become the RFC 3339 string of their
    value, every other field keeps its value, and, the parser reading
    its own output back as it is, normalising the result again changes
    nothing. *)
Theorem date_time_to_rfc3339_normalizes (record : gmap string value) :
  (forall item v, item = "lastModified" \/ item = "created" ->
     record !! item = Some v -> v <> VNone -> is_ok (parse_to_rfc3339 v) = true) ->
  exists out,
    _date_time_to_rfc3339 record = Ok out /\
    (forall item, item = "lastModified" \/ item = "created" ->
       (record !! item = None -> out !! item = None) /\
       (record !! item = Some VNone -> out !! item = Some VNone) /\
       (forall v, record !! item = Some v -> v <> VNone ->
          exists s, parse_to_rfc3339 v = Ok s /\ out !! item = Some (VStr s))) /\
    (forall k, k <> "lastModified" -> k <> "created" -> out !! k = record !! k) /\
    ((forall v s, parse_to_rfc3339 v = Ok s -> parse_to_rfc3339 (VStr s) = Ok s) ->
     _date_time_to_rfc3339 out = Ok out).
Proof.
  intros Hparse. unfold _date_time_to_rfc3339.
  assert (Hnone : forall v, is_None v = false <-> v <> VNone).
  { intros v. by destruct v. }
  destruct (convert_item_runs "lastModified" record) as [r1 Hr1].
  { intros v Hv Hn. apply (Hparse "lastModified"); auto. by apply Hnone. }
  destruct (convert_item_spec _ _ _ Hr1) as [Hoth1 Hat1].
  destruct (convert_item_runs "created" r1) as [out Hout].
  { intros v Hv Hn. apply (Hparse "created"); auto; [|by apply Hnone].
    by rewrite <- Hoth1. }
  destruct (convert_item_spec _ _ _ Hout) as [Hoth2 Hat2].
  exists out. rewrite Hr1. simpl. split; [exact Hout|].
  assert (Hlm : out !! "lastModified" = r1 !! "lastModified") by by apply Hoth2.
  assert (Hcr : r1 !! "created" = record !! "created") by by apply Hoth1.
  split; [|split].
  - intros item [-> | ->].
    + rewrite Hlm. destruct (record !! "lastModified") as [v|] eqn:Hv.
      * destruct (is_None v) eqn:Hn.
        -- subst r1. rewrite Hv. destruct v; try done.
           repeat split; try done. by intros v' [= <-] ?.
        -- destruct Hat1 as (s & Hs & ->). rewrite lookup_insert_eq.
           repeat split; try done.
           ++ intros [= ->]. done.
           ++ intros v' [= <-] _. by exists s.
      * subst r1. rewrite Hv. repeat split; done.
    + rewrite <- Hcr. destruct (r1 !! "created") as [v|] eqn:Hv.
      * destruct (is_None v) eqn:Hn.
        -- subst out. rewrite Hv. destruct v; try done.
           repeat split; try done. by intros v' [= <-] ?.
        -- destruct Hat2 as (s & Hs & ->). rewrite lookup_insert_eq.
           repeat split; try done.
           ++ intros [= ->]. done.
           ++ intros v' [= <-] _. by exists s.
      * subst out. rewrite Hv. repeat split; done.
  - intros k Hk1 Hk2. by rewrite Hoth2, Hoth1.
  - intros Hfix.
    assert (Hdone1 : forall v, out !! "lastModified" = Some v -> is_None v = false ->
              exists v0 s, parse_to_rfc3339 v0 = Ok s /\ v = VStr s).
    { rewrite Hlm. intros v Hv Hn. destruct (record !! "lastModified") as [v1|] eqn:Hv1.
      - destruct (is_None v1) eqn:Hn1.
        + subst r1. rewrite Hv1 in Hv. injection Hv as ->. congruence.
        + destruct Hat1 as (s & Hs & ->). rewrite lookup_insert_eq in Hv.
          injection Hv as <-. eauto.
      - subst r1. congruence. }
    assert (Hdone2 : forall v, out !! "created" = Some v -> is_None v = false ->
              exists v0 s, parse_to_rfc3339 v0 = Ok s /\ v = VStr s).
    { intros v Hv Hn. destruct (r1 !! "created") as [v1|] eqn:Hv1.
      - destruct (is_None v1) eqn:Hn1.
        + subst out. rewrite Hv1 in Hv. injection Hv as ->. congruence.
        + destruct Hat2 as (s & Hs & ->). rewrite lookup_insert_eq in Hv.
          injection Hv as <-. eauto.
      - subst out. congruence. }
    rewrite (convert_item_fixed "lastModified" out Hfix Hdone1). simpl.
    exact (convert_item_fixed "created" out Hfix Hdone2).
Qed.

End ExtractorProps.

Lemma date_time_to_rfc3339_normalizes_witness :
  exists out,
    @Extractor._date_time_to_rfc3339 Extractor.sample_env Extractor.sample_record = Py.Ok out /\
    out !! "lastModified" = Some (Py.VStr "2024-01-01T00:00:00+00:00") /\
    out !! "created" = Some Py.VNone /\
    out !! "id" = Some (Py.VInt 7) /\
    @Extractor._date_time_to_rfc3339 Extractor.sample_env out = Py.Ok out.
Proof.
  destruct (@date_time_to_rfc3339_normalizes Extractor.sample_env Extractor.sample_record)
    as (out & Hrun & Hitems & Hother & Hidem).
  - intros item v [-> | ->] Hv Hn; vm_compute in Hv; injection Hv as <-;
      [reflexivity | contradiction].
  - exists out. split; [exact Hrun|].
    destruct (Hitems "lastModified" (or_introl eq_refl)) as (_ & _ & Hlm).
    destruct (Hlm (Py.VStr "2024-01-01") eq_refl ltac:(discriminate)) as (s & Hs & Hout).
    vm_compute in Hs. injection Hs as <-.
    destruct (Hitems "created" (or_intror eq_refl)) as (_ & Hcr & _).
    split; [exact Hout|]. split; [exact (Hcr eq_refl)|].
    split; [rewrite Hother; [reflexivity | discriminate | discriminate]|].
    apply Hidem. intros [| | |s0| |] s Hp; try discriminate. simpl in Hp.
    destruct (String.eqb_spec s0 "2024-01-01") as [->|Hne1].
    + injection Hp as <-. reflexivity.
    + destruct (String.eqb_spec s0 "2024-01-01T00:00:00+00:00") as [->|Hne2];
        [|discriminate].
      injection Hp as <-. reflexivity.
Defined.

Section RetrieverProps.
Import Py Retriever.
Context `{Retriever.Env} `{Selector.Env}.

Lemma lookup_update_at_eq key record m :
  lookup_merged key (update_at key record m)
  = Some (record ∪ default ∅ (lookup_merged key m)).
Proof.
  induction m as [|[k d] m IH]; simpl.
  - by rewrite decide_True.
  - destruct (decide (k = key)) as [->|Hne]; simpl.
    + by rewrite decide_True.
    + by rewrite decide_False.
Qed.

Lemma lookup_update_at_ne key key' record m :
  key <> key' -> lookup_merged key' (update_at key record m) = lookup_merged key' m.
Proof.
  intros Hne. induction m as [|[k d] m IH]; simpl.
  - by rewrite decide_False.
  - destruct (decide (k = key)) as [->|Hk]; simpl.
    + by rewrite !decide_False.
    + by rewrite IH.
Qed.

Lemma update_at_keys key record m k :
  k ∈ map fst (update_at key record m) <-> k = key \/ k ∈ map fst m.
Proof.
  induction m as [|[k0 d] m IH]; simpl.
  - rewrite list_elem_of_singleton. split; [auto|].
    intros [?|Hin]; [done | by apply elem_of_nil in Hin].
  - destruct (decide (k0 = key)) as [->|Hne]; simpl.
    + rewrite elem_of_cons. tauto.
    + rewrite !elem_of_cons, IH. tauto.
Qed.

Lemma lookup_merged_None key m : key ∉ map fst m -> lookup_merged key m = None.
Proof.
  induction m as [|[k d] m IH]; simpl; [done|].
  intros [Hne Hnin]%not_elem_of_cons. rewrite decide_False by congruence.
  by apply IH.
Qed.

Lemma merge_key_union record d key :
  merge_key record = Ok key -> merge_key (record ∪ d) = Ok key.
Proof.
  unfold merge_key, getitem.
  destruct (record !! "end_date") as [e|] eqn:He; [|done].
  destruct (record !! "pivotValues") as [p|] eqn:Hp; [|done].
  by rewrite (lookup_union_Some_l _ _ _ _ He), (lookup_union_Some_l _ _ _ _ Hp).
Qed.

Lemma update_at_well_keyed key record m :
  merge_key record = Ok key -> well_keyed m -> well_keyed (update_at key record m).
Proof.
  intros Hkey. induction m as [|[k d] m IH]; intros [Hnd Hall]; simpl.
  - split; [apply NoDup_singleton|]. constructor; [|constructor]. simpl.
    by apply merge_key_union.
  - apply NoDup_cons in Hnd as [Hk Hnd]. apply Forall_cons in Hall as [Hd Hall].
    destruct (decide (k = key)) as [->|Hne].
    + split; [by apply NoDup_cons|]. constructor; [|done]. simpl.
      by apply merge_key_union.
    + destruct (IH (conj Hnd Hall)) as [Hnd' Hall'].
      split; [|by constructor]. simpl. apply NoDup_cons. split; [|done].
      rewrite update_at_keys. intros [?|?]; [done | by apply Hk].
Qed.

Lemma filter_has_key_well_keyed key m :
  well_keyed m ->
  List.filter (has_key key) (map snd m)
  = match lookup_merged key m with Some d => [d] | None => [] end.
Proof.
  induction m as [|[k d] m IH]; intros [Hnd Hall]; simpl; [done|].
  apply NoDup_cons in Hnd as [Hk Hnd]. apply Forall_cons in Hall as [Hd Hall].
  simpl in Hd, Hk. unfold has_key at 1. rewrite Hd.
  destruct (decide (k = key)) as [->|Hne].
  - rewrite String.eqb_refl. rewrite (IH (conj Hnd Hall)).
    by rewrite (lookup_merged_None _ _ Hk).
  - destruct (String.eqb_spec k key); [done|]. by apply IH.
Qed.

Lemma merge_fragments_app a b m :
  merge_fragments (a ++ b) m = merge_fragments a m ≫= merge_fragments b.
Proof.
  revert m. induction a as [|r a IH]; intros m; simpl; [done|].
  destruct (merge_key r); simpl; [apply IH | done].
Qed.

Lemma read_chunks_all_finish partition chunks m :
  Forall (fun c => dom partition ∩ dom c = ∅) chunks ->
  Forall (fun c => (fetch partition c).2 = None) chunks ->
  read_chunks partition (map VDict chunks) m
  = merge_fragments (fragments_of partition chunks) m.
Proof.
  intros Hdisj Hfin. revert m.
  induction Hfin as [|c chunks Hc _ IH]; intros m; [done|].
  apply Forall_cons in Hdisj as [Hd Hdisj].
  unfold fragments_of. simpl. unfold updated_stream_slice.
  rewrite bool_decide_eq_true_2 by done. simpl. rewrite merge_fragments_app.
  destruct (fetch partition c) as [frs failure]. simpl in *. subst failure.
  destruct (merge_fragments frs m); simpl; [by apply IH | done].
Qed.

Lemma merge_fragments_runs fragments m :
  Forall (fun r => is_ok (merge_key r) = true) fragments ->
  well_keyed m ->
  exists m', merge_fragments fragments m = Ok m' /\ well_keyed m' /\
    forall key,
      lookup_merged key m'
      = match List.filter (has_key key) fragments with
        | [] => lookup_merged key m
        | mine => Some (union_onto (default ∅ (lookup_merged key m)) mine)
        end.
Proof.
  intros Hkeys. revert m. induction Hkeys as [|r frs Hr _ IH]; intros m Hm.
  - exists m. split; [done|]. by split.
  - simpl. unfold has_key. destruct (merge_key r) as [k|] eqn:Hk; [|done]. simpl.
    destruct (IH (update_at k r m) (update_at_well_keyed _ _ _ Hk Hm))
      as (m' & -> & Hm' & Hlook).
    exists m'. split; [done|]. split; [done|]. intros key. rewrite Hlook.
    fold (has_key key). destruct (String.eqb_spec k key) as [->|Hne].
    + rewrite lookup_update_at_eq. simpl.
      by destruct (List.filter (has_key key) frs).
    + by rewrite lookup_update_at_ne.
Qed.

Lemma union_onto_app d a b : union_onto d (a ++ b) = union_onto (union_onto d a) b.
Proof. apply foldl_app. Qed.

Lemma union_onto_mono d fragments f :
  is_Some (d !! f) -> is_Some (union_onto d fragments !! f).
Proof.
  revert d. induction fragments as [|r frs IH]; intros d Hd; simpl; [done|].
  apply IH. rewrite lookup_union. destruct (r !! f), Hd as [? ->]; simpl; eauto.
Qed.

Lemma union_onto_elem d fragments r f :
  r ∈ fragments -> is_Some (r !! f) -> is_Some (union_onto d fragments !! f).
Proof.
  intros Hin [v Hv]. apply list_elem_of_split in Hin as (a & b & ->).
  rewrite union_onto_app. simpl. apply union_onto_mono.
  rewrite (lookup_union_Some_l _ _ _ _ Hv). eauto.
Qed.

Lemma union_onto_absent d fragments f :
  Forall (fun r => r !! f = None) fragments -> union_onto d fragments !! f = d !! f.
Proof.
  intros Hall. revert d. induction Hall as [|r frs Hr _ IH]; intros d; simpl; [done|].
  by rewrite IH, lookup_union_r.
Qed.

Lemma well_keyed_nil : well_keyed [].
Proof. split; [apply NoDup_nil_2 | constructor]. Qed.

Lemma map_union_absorb (record d : gmap string value) :
  record ∪ (record ∪ d) = record ∪ d.
Proof. by rewrite (assoc_L (∪)), (idemp_L (∪)). Qed.

Lemma update_at_twice key record m :
  update_at key record (update_at key record m) = update_at key record m.
Proof.
  induction m as [|[k d] m IH]; simpl.
  - rewrite decide_True by done. by rewrite map_union_absorb.
  - destruct (decide (k = key)) as [->|Hne]; simpl.
    + rewrite decide_True by done. by rewrite map_union_absorb.
    + rewrite decide_False by done. by rewrite IH.
Qed.

Lemma read_chunks_fails partition chunks c e :
  VDict c ∈ chunks -> (fetch partition c).2 = Some e ->
  forall m, exists e', read_chunks partition chunks m = Raise e'.
Proof.
  intros Hin Hfail. induction chunks as [|c0 chunks IH]; intros m.
  - by apply elem_of_nil in Hin.
  - simpl. destruct (as_mapping c0) as [d0|e0] eqn:Hd0; simpl; [|eauto].
    unfold updated_stream_slice. case_bool_decide; simpl; [|eauto].
    destruct (fetch partition d0) as [frs failure] eqn:Hfetch.
    destruct (merge_fragments frs m) as [m'|e1]; simpl; [|eauto].
    destruct failure as [e2|]; [eauto|].
    apply elem_of_cons in Hin as [Heq|Hin]; [|by apply IH].
    subst c0. simpl in Hd0. injection Hd0 as <-.
    rewrite Hfetch in Hfail. discriminate.
Qed.

(** C3, as the code has it. When the transformations can be installed,
    no chunk of the slice has a key of the partition, the retrievals all
    finish and the fragments all carry the two key fields, the fragments
    whose formatted key, the end date, a dash and the pivot, is the same
    string come out as exactly one record: the field by field union of
    those fragments, which has every field that any of them has, with
    the value of the last fragment that has the field; and a field that
    the record under that key has at some moment of the accumulation is
    still in the merged record. *)
Theorem read_records_merges
    (transformations installed : list Selector.entry)
    (stream_slice : PartitionCursor.StreamSlice (gmap string value))
    (chunks : list (gmap string value)) (key : string) :
  let partition := PartitionCursor.partition stream_slice in
  let fragments := fragments_of partition chunks in
  let mine := List.filter (has_key key) fragments in
  Selector._apply_transformations transformations = Ok installed ->
  field_date_chunks (PartitionCursor.cursor_slice stream_slice) = Ok (map VDict chunks) ->
  Forall (fun c => dom partition ∩ dom c = ∅) chunks ->
  Forall (fun c => (fetch partition c).2 = None) chunks ->
  Forall (fun r => is_ok (merge_key r) = true) fragments ->
  mine <> [] ->
  exists emitted,
    read_records transformations stream_slice = ((emitted, None), installed) /\
    List.filter (has_key key) emitted = [union_onto ∅ mine] /\
    (forall r f, r ∈ mine -> is_Some (r !! f) -> is_Some (union_onto ∅ mine !! f)) /\
    (forall before r after f v,
       mine = before ++ r :: after -> r !! f = Some v ->
       Forall (fun r' => r' !! f = None) after ->
       union_onto ∅ mine !! f = Some v) /\
    (forall (n n' : nat) m m' d f,
       (n <= n')%nat ->
       merge_fragments (take n fragments) [] = Ok m ->
       merge_fragments (take n' fragments) [] = Ok m' ->
       lookup_merged key m = Some d -> is_Some (d !! f) ->
       exists d', lookup_merged key m' = Some d' /\ is_Some (d' !! f)) /\
    (forall m, merge_fragments fragments [] = Ok m ->
       lookup_merged key m = Some (union_onto ∅ mine)).
Proof.
  intros partition fragments mine Hinstall Hchunks Hdisj Hfin Hkeys Hmine.
  destruct (merge_fragments_runs fragments [] Hkeys well_keyed_nil)
    as (m & Hrun & Hwk & Hlook).
  exists (map snd m). split.
  { unfold read_records. rewrite Hinstall, Hchunks. simpl.
    fold partition. rewrite (read_chunks_all_finish _ _ _ Hdisj Hfin).
    fold fragments. by rewrite Hrun. }
  split.
  { rewrite (filter_has_key_well_keyed _ _ Hwk), Hlook. fold mine.
    by destruct mine. }
  split; [intros r f; apply union_onto_elem|].
  split.
  { intros before r after f v -> Hv Hafter.
    rewrite union_onto_app. simpl. rewrite (union_onto_absent _ _ _ Hafter).
    by apply lookup_union_Some_l. }
  split.
  - intros n n' m_n m_n' d f Hle Hn Hn' Hd Hf.
    destruct (merge_fragments_runs (take n fragments) [] (Forall_take _ _ _ Hkeys)
                well_keyed_nil) as (m1 & Hrun1 & _ & Hlook1).
    destruct (merge_fragments_runs (take n' fragments) [] (Forall_take _ _ _ Hkeys)
                well_keyed_nil) as (m2 & Hrun2 & _ & Hlook2).
    rewrite Hn in Hrun1. injection Hrun1 as <-.
    rewrite Hn' in Hrun2. injection Hrun2 as <-.
    rewrite Hlook1 in Hd. rewrite Hlook2. simpl in Hd. simpl.
    replace n' with (n + (n' - n))%nat by lia.
    rewrite <- take_take_drop, List.filter_app.
    destruct (List.filter (has_key key) (take n fragments)) as [|r0 fs]; [done|].
    injection Hd as <-. simpl. eexists. split; [reflexivity|].
    rewrite union_onto_app. by apply union_onto_mono.
  - intros m0 Hm0. rewrite Hrun in Hm0. injection Hm0 as <-.
    rewrite Hlook. fold mine. by destruct mine.
Qed.

(** C4. When the retrieval of one chunk of the slice ends in a failure,
    [read_records] yields no record at all before it raises: what was
    merged until then is dropped. *)
Theorem read_records_failure_discards
    (transformations : list Selector.entry)
    (stream_slice : PartitionCursor.StreamSlice (gmap string value))
    (chunks : list value) (c : gmap string value) (e : exn) :
  field_date_chunks (PartitionCursor.cursor_slice stream_slice) = Ok chunks ->
  VDict c ∈ chunks ->
  (fetch (PartitionCursor.partition stream_slice) c).2 = Some e ->
  exists e', (read_records transformations stream_slice).1 = ([], Some e').
Proof.
  intros Hchunks Hin Hfail. unfold read_records.
  destruct (Selector._apply_transformations transformations) as [installed|e0];
    [|by exists e0].
  rewrite Hchunks. simpl.
  destruct (read_chunks_fails _ _ _ _ Hin Hfail []) as [e' ->]. by exists e'.
Qed.

(** C8. Merging a fragment a second time, under the same key, gives the
    merged records that merging it once gives. *)
Theorem merge_fragment_idempotent (record : gmap string value) (m : merged) :
  merge_fragments [record; record] m = merge_fragments [record] m /\
  forall key, update_at key record (update_at key record m) = update_at key record m.
Proof.
  split; [|intros key; apply update_at_twice].
  simpl. destruct (merge_key record) as [key|]; simpl; [|done].
  by rewrite update_at_twice.
Qed.

End RetrieverProps.

Section RetrieverSample.
Import Py Retriever.

Lemma read_records_merges_witness :
  exists emitted installed,
    @read_records sample_env Selector.sample_env
      [@Selector.Declared Selector.sample_env Selector.sample_declaration]
      (sample_slice [sample_chunk "clicks,dateRange,pivotValues";
                     sample_chunk "impressions,dateRange,pivotValues"])
    = ((emitted, None), installed) /\
    List.filter (@has_key sample_env "2024-01-31-urn:li:sponsoredCampaign:1") emitted
    = [union_onto ∅ [sample_fragment "clicks" 5; sample_fragment "impressions" 90]].
Proof.
  destruct (@Selector._apply_transformations Selector.sample_env
              [@Selector.Declared Selector.sample_env Selector.sample_declaration])
    as [installed|e] eqn:Hinstall; [|vm_compute in Hinstall; discriminate].
  destruct (@read_records_merges sample_env Selector.sample_env
              [@Selector.Declared Selector.sample_env Selector.sample_declaration]
              installed
              (sample_slice [sample_chunk "clicks,dateRange,pivotValues";
                             sample_chunk "impressions,dateRange,pivotValues"])
              [sample_chunk "clicks,dateRange,pivotValues";
               sample_chunk "impressions,dateRange,pivotValues"]
              "2024-01-31-urn:li:sponsoredCampaign:1")
    as (emitted & Hrun & Hone & _).
  - exact Hinstall.
  - reflexivity.
  - repeat constructor.
  - repeat constructor.
  - repeat constructor.
  - discriminate.
  - exists emitted, installed. split; [exact Hrun | exact Hone].
Defined.

(** C3 as stated fails: two fragments of different days and pivots whose
    formatted keys are the same string are merged into one record, so
    the first pair has no record of its own: its clicks are in a record
    of the other day and pivot. *)
Lemma read_records_counterexample :
  colliding_a !! "end_date" <> colliding_b !! "end_date" /\
  colliding_a !! "pivotValues" <> colliding_b !! "pivotValues" /\
  @merge_key sample_env_colliding colliding_a
  = @merge_key sample_env_colliding colliding_b /\
  exists record,
    (@read_records sample_env_colliding Selector.sample_env []
       (sample_slice [sample_chunk "clicks"])).1 = ([record], None) /\
    record !! "end_date" = Some (VStr "2024-01-31") /\
    record !! "pivotValues" = Some (VStr "x") /\
    record !! "clicks" = Some (VInt 5).
Proof.
  split; [discriminate|]. split; [discriminate|]. split; [reflexivity|].
  eexists. split; [vm_compute; reflexivity|]. repeat split; reflexivity.
Qed.

Lemma read_records_failure_discards_witness :
  exists e',
    (@read_records sample_env Selector.sample_env
       [@Selector.Declared Selector.sample_env Selector.sample_declaration]
       (sample_slice [sample_chunk "clicks,dateRange,pivotValues";
                      sample_chunk "likes,dateRange,pivotValues"])).1
    = ([], Some e').
Proof.
  apply (@read_records_failure_discards sample_env Selector.sample_env _ _
           [VDict (sample_chunk "clicks,dateRange,pivotValues");
            VDict (sample_chunk "likes,dateRange,pivotValues")]
           (sample_chunk "likes,dateRange,pivotValues") UpstreamRequestFailure).
  - reflexivity.
  - apply elem_of_cons. right. apply elem_of_cons. by left.
  - reflexivity.
Defined.

End RetrieverSample.

(** * Further properties of the code *)

Section FieldChunkerMore.
Import Py FieldChunker.

(** A zero chunk size is refused whatever the fields are, a negative one
    makes no chunk, and no fields make no chunk. *)
Theorem chunk_analytics_fields_edges (fields : list string) (size : Z) :
  chunk_analytics_fields fields 0 = Raise ValueError /\
  ((size < 0)%Z -> chunk_analytics_fields fields size = Ok []) /\
  (size <> 0%Z -> chunk_analytics_fields [] size = Ok []).
Proof.
  split; [reflexivity|]. split.
  - intros Hneg. unfold chunk_analytics_fields, range, range_len.
    destruct (Z.eqb_spec size 0); [lia|].
    destruct (Z.ltb_spec 0 size); [lia|].
    destruct (Z.ltb_spec (Z.of_nat (length fields)) 0); [lia|].
    rewrite andb_false_r. reflexivity.
  - intros Hnz. unfold chunk_analytics_fields, range, range_len.
    destruct (Z.eqb_spec size 0); [lia|]. simpl.
    rewrite !andb_false_r. reflexivity.
Qed.

Lemma chunk_analytics_fields_edges_witness :
  chunk_analytics_fields ["clicks"; "likes"] (-3) = Ok [] /\
  chunk_analytics_fields [] 20 = Ok [].
Proof.
  split.
  - apply (proj1 (proj2 (chunk_analytics_fields_edges ["clicks"; "likes"] (-3)))). lia.
  - apply (proj2 (proj2 (chunk_analytics_fields_edges [] 20))). lia.
Defined.

(** For a positive chunk size the number of chunks is the number of
    fields divided by the chunk size, rounded up. *)
Theorem chunk_analytics_fields_count (fields : list string) (size : Z) :
  (0 < size)%Z ->
  exists chunks,
    chunk_analytics_fields fields size = Ok chunks /\
    Z.of_nat (length chunks) = ((Z.of_nat (length fields) + size - 1) / size)%Z.
Proof.
  intros Hs. eexists. split; [by apply chunk_analytics_fields_runs|].
  unfold groups_of. rewrite !length_map, length_seq. unfold range_len.
  destruct (Z.ltb_spec 0 size); [|lia]. simpl.
  set (n := Z.of_nat (length fields)).
  destruct (Z.ltb_spec 0 n) as [Hn|Hn].
  - replace (n + size - 1)%Z with ((n - 1 - 0) + 1 * size)%Z by lia.
    rewrite Z.div_add by lia.
    assert (0 <= (n - 1 - 0) / size)%Z as Hq by (apply Z.div_pos; lia).
    rewrite Z2Nat.id; lia.
  - destruct (Z.ltb_spec size 0); [lia|]. simpl.
    assert (n = 0%Z) as -> by lia. rewrite Z.div_small; lia.
Qed.

Lemma chunk_analytics_fields_count_witness :
  exists chunks,
    chunk_analytics_fields ["a"; "b"; "c"; "d"; "e"] 2 = Ok chunks /\
    Z.of_nat (length chunks) = 3%Z.
Proof.
  destruct (chunk_analytics_fields_count ["a"; "b"; "c"; "d"; "e"] 2) as (chunks & Hrun & Hlen);
    [lia|].
  exists chunks. split; [exact Hrun | exact Hlen].
Defined.

Lemma ensure_field_NoDup name c : NoDup c -> NoDup (ensure_field name c).
Proof.
  intros Hc. unfold ensure_field. case_bool_decide; [done|].
  apply NoDup_app. split; [done|]. split; [|apply NoDup_singleton].
  intros x Hx ->%list_elem_of_singleton. done.
Qed.

(** When no field is named twice, no chunk names a field twice: a
    structural field that the input already has in a chunk is not added
    to that chunk again. *)
Theorem chunk_analytics_fields_NoDup (fields : list string) (size : Z) :
  (0 < size)%Z -> NoDup fields ->
  exists chunks,
    chunk_analytics_fields fields size = Ok chunks /\ Forall NoDup chunks.
Proof.
  intros Hs Hnd. eexists. split; [by apply chunk_analytics_fields_runs|].
  apply Forall_map. unfold groups_of. apply Forall_map, Forall_forall. intros i _.
  simpl. unfold with_base_fields. do 2 apply ensure_field_NoDup.
  apply (sublist_NoDup _ fields); [exact Hnd|].
  etrans; [apply sublist_take | apply sublist_drop].
Qed.

Lemma chunk_analytics_fields_NoDup_witness :
  exists chunks,
    chunk_analytics_fields ["dateRange"; "clicks"; "pivotValues"] 2 = Ok chunks /\
    Forall NoDup chunks.
Proof.
  apply chunk_analytics_fields_NoDup; [lia|].
  apply (bool_decide_unpack _). reflexivity.
Defined.

End FieldChunkerMore.

Section DateRangeMore.
Import Py DateCursor.
Context `{DateCursor.Env}.

Local Open Scope Z_scope.

Lemma partition_daterange_within fuel end_ step : forall start slices,
  _partition_daterange fuel start end_ step = Some (Ok slices) ->
  Forall (fun sl => (window sl).1 <= end_ /\ (window sl).2 <= end_) slices.
Proof.
  induction fuel as [|fuel IH]; intros start slices Hrun; [done|].
  rewrite partition_daterange_unfold in Hrun. cbv zeta in Hrun.
  destruct (Z.leb_spec start end_) as [Hle|Hgt].
  - destruct (FieldChunker.chunk_analytics_fields _ _) as [chunks|e]; [|done].
    destruct (_partition_daterange fuel _ end_ step) as [[rest|e]|] eqn:Hrest; try done.
    injection Hrun as <-. constructor; [|by eapply IH].
    simpl. unfold _get_date_min. lia.
  - injection Hrun as <-. constructor.
Qed.

(** Whatever the step is, every slice that [_partition_daterange]
    returns starts at or before [end] and ends at [end] or one
    granularity unit before the next start, whichever is first: no slice
    ends after [end]. *)
Theorem partition_daterange_never_overruns (fuel : nat) (start end_ : datetime)
    (step : Step) (slices : list date_slice) :
  _partition_daterange fuel start end_ step = Some (Ok slices) ->
  Forall (fun sl =>
    (window sl).1 <= end_ /\ (window sl).2 <= end_ /\
    (window sl).2
    = Z.min (_evaluate_next_start_date_safely (window sl).1 step - _cursor_granularity)
            end_) slices.
Proof.
  revert start slices.
  induction fuel as [|fuel IH]; intros start slices Hrun; [done|].
  rewrite partition_daterange_unfold in Hrun. cbv zeta in Hrun.
  destruct (Z.leb_spec start end_) as [Hle|Hgt].
  - destruct (FieldChunker.chunk_analytics_fields _ _) as [chunks|e]; [|done].
    destruct (_partition_daterange fuel _ end_ step) as [[rest|e]|] eqn:Hrest; try done.
    injection Hrun as <-. constructor; [|by eapply IH].
    simpl. unfold _get_date_min. lia.
  - injection Hrun as <-. constructor.
Qed.

Lemma partition_daterange_chunks fuel end_ step chunks : forall start slices,
  FieldChunker.chunk_analytics_fields ANALYTICS_FIELDS_V2 FIELDS_CHUNK_SIZE = Ok chunks ->
  _partition_daterange fuel start end_ step = Some (Ok slices) ->
  Forall (fun sl => field_date_chunks sl
                    = map (field_date_chunk (window sl).1 (window sl).2) chunks) slices.
Proof.
  induction fuel as [|fuel IH]; intros start slices Hchunks Hrun; [done|].
  rewrite partition_daterange_unfold in Hrun. cbv zeta in Hrun.
  destruct (Z.leb_spec start end_) as [Hle|Hgt].
  - rewrite Hchunks in Hrun.
    destruct (_partition_daterange fuel _ end_ step) as [[rest|e]|] eqn:Hrest; try done.
    injection Hrun as <-. constructor; [done | by eapply IH].
  - injection Hrun as <-. constructor.
Qed.

Lemma field_date_chunk_fields start end_date fields_set :
  field_date_chunk start end_date fields_set !! "fields"
  = Some (VStr (String.concat "," fields_set)).
Proof.
  unfold field_date_chunk. rewrite !lookup_insert_ne by done.
  by rewrite lookup_insert_eq.
Qed.

(** Every slice has one request descriptor for each field chunk, in the
    order of the chunks, and the descriptor's "fields" entry is the
    chunk joined by commas, whatever the start and end fields are
    called. *)
Theorem partition_daterange_descriptors (fuel : nat) (start end_ : datetime)
    (step : Step) (slices : list date_slice) (chunks : list (list string)) :
  FieldChunker.chunk_analytics_fields ANALYTICS_FIELDS_V2 FIELDS_CHUNK_SIZE = Ok chunks ->
  _partition_daterange fuel start end_ step = Some (Ok slices) ->
  Forall (fun sl =>
    Forall2 (fun d chunk => d !! "fields" = Some (VStr (String.concat "," chunk)))
            (field_date_chunks sl) chunks) slices.
Proof.
  intros Hchunks Hrun.
  eapply Forall_impl; [exact (partition_daterange_chunks _ _ _ _ _ _ Hchunks Hrun)|].
  simpl. intros sl ->. apply Forall2_fmap_l, Forall_Forall2_diag, Forall_forall.
  intros chunk _. apply field_date_chunk_fields.
Qed.

(** The six date parts of a descriptor are those of the bounds of its
    slice; the names of the start and end fields cannot take their
    place. A start or end field that has a name of its own holds the
    formatted bound. *)
Theorem field_date_chunk_entries (start end_date : datetime) (fields_set : list string) :
  let d := field_date_chunk start end_date fields_set in
  d !! "start.day" = Some (VInt (day start)) /\
  d !! "start.month" = Some (VInt (month start)) /\
  d !! "start.year" = Some (VInt (year start)) /\
  d !! "end.day" = Some (VInt (day end_date)) /\
  d !! "end.month" = Some (VInt (month end_date)) /\
  d !! "end.year" = Some (VInt (year end_date)) /\
  (partition_field_end ∉ ["fields"; "start.day"; "start.month"; "start.year";
                          "end.day"; "end.month"; "end.year"] ->
   d !! partition_field_end = Some (VStr (_format_datetime end_date)) /\
   (partition_field_start ∉ [partition_field_end; "fields"; "start.day"; "start.month";
                             "start.year"; "end.day"; "end.month"; "end.year"] ->
    d !! partition_field_start = Some (VStr (_format_datetime start)))).
Proof.
  unfold field_date_chunk. cbv zeta.
  repeat (split; [by repeat (rewrite lookup_insert_ne by done); rewrite lookup_insert_eq|]).
  intros Hend. split.
  - do 7 (rewrite lookup_insert_ne;
            [|intros Heq; apply Hend; rewrite <- Heq;
              apply (bool_decide_unpack _); reflexivity]).
    by rewrite lookup_insert_eq.
  - intros Hstart.
    do 7 (rewrite lookup_insert_ne;
            [|intros Heq; apply Hstart; rewrite <- Heq;
              apply elem_of_cons; right; apply (bool_decide_unpack _); reflexivity]).
    rewrite lookup_insert_ne; [by rewrite lookup_insert_eq|].
    intros Heq. apply Hstart. rewrite Heq. apply elem_of_cons. by left.
Qed.

Lemma partition_daterange_fixed_step end_ step (d : Z) :
  0 < FIELDS_CHUNK_SIZE -> 0 < d ->
  (forall t, _evaluate_next_start_date_safely t step = t + d) ->
  forall (n : nat) start,
    start <= end_ -> (end_ - start) / d = Z.of_nat n ->
    exists slices,
      _partition_daterange (S (S n)) start end_ step = Some (Ok slices) /\
      length slices = S n.
Proof.
  intros Hsize Hd Hstep.
  pose proof (chunk_analytics_fields_runs ANALYTICS_FIELDS_V2 FIELDS_CHUNK_SIZE Hsize)
    as Hchunks.
  induction n as [|n IH]; intros start Hle Hn.
  - rewrite partition_daterange_unfold. cbv zeta.
    destruct (Z.leb_spec start end_); [|lia]. rewrite Hchunks, Hstep.
    rewrite partition_daterange_stop.
    + eexists. split; [reflexivity | reflexivity].
    + apply Z.div_small_iff in Hn as [?|?]; lia.
  - rewrite partition_daterange_unfold. cbv zeta.
    destruct (Z.leb_spec start end_); [|lia]. rewrite Hchunks, Hstep.
    assert (Hq : (end_ - (start + d)) / d = Z.of_nat n).
    { replace (end_ - (start + d)) with ((end_ - start) + (-1) * d) by lia.
      rewrite Z.div_add by lia. lia. }
    assert (start + d <= end_).
    { destruct (Z.le_gt_cases (start + d) end_); [done|].
      rewrite Z.div_small in Hn by lia. lia. }
    destruct (IH (start + d) ltac:(done) Hq) as (slices & -> & Hlen).
    eexists. split; [reflexivity|]. simpl. by rewrite Hlen.
Qed.

(** With a step of a fixed positive length [d], the range from [start]
    to [end] is cut into [(end - start) / d + 1] slices. *)
Theorem partition_daterange_count (start end_ : datetime) (step : Step) (d : Z) :
  0 < FIELDS_CHUNK_SIZE -> 0 < d ->
  (forall t, _evaluate_next_start_date_safely t step = t + d) ->
  start <= end_ ->
  exists fuel slices,
    _partition_daterange fuel start end_ step = Some (Ok slices) /\
    Z.of_nat (length slices) = (end_ - start) / d + 1.
Proof.
  intros Hsize Hd Hstep Hle.
  assert (0 <= (end_ - start) / d) by (apply Z.div_pos; lia).
  destruct (partition_daterange_fixed_step end_ step d Hsize Hd Hstep
              (Z.to_nat ((end_ - start) / d)) start Hle ltac:(by rewrite Z2Nat.id))
    as (slices & Hrun & Hlen).
  eexists _, slices. split; [exact Hrun|]. rewrite Hlen.
  rewrite Nat2Z.inj_succ, Z2Nat.id by done. lia.
Qed.

End DateRangeMore.

Section CampaignMore.
Import Py DateCursor.
Context `{DateCursor.Env}.

Lemma resolve_end_datetime_not_completed (extra_fields : gmap string value) status :
  extra_fields !! "status" = Some status -> status <> VStr "COMPLETED" ->
  resolve_end_datetime extra_fields = Ok select_best_end_datetime.
Proof.
  intros Hst Hne. unfold resolve_end_datetime, choose_end.
  rewrite (getitem_Some _ _ _ Hst). simpl.
  destruct (eq_str status "COMPLETED") eqn:Heq; [|reflexivity].
  by apply eq_str_true in Heq.
Qed.

(** For a campaign that is not completed the schedule is not looked at:
    with any "runSchedule", or with none, the slices are the same. *)
Theorem stream_slices_ignores_schedule (fuel : nat) (extra_fields : gmap string value)
    (status run_schedule : value) :
  extra_fields !! "status" = Some status -> status <> VStr "COMPLETED" ->
  stream_slices fuel (<["runSchedule" := run_schedule]> extra_fields)
  = stream_slices fuel extra_fields /\
  stream_slices fuel (delete "runSchedule" extra_fields)
  = stream_slices fuel extra_fields.
Proof.
  intros Hst Hne. unfold stream_slices.
  rewrite (resolve_end_datetime_not_completed extra_fields status Hst Hne).
  rewrite (resolve_end_datetime_not_completed (<["runSchedule" := run_schedule]> extra_fields)
             status) by (by rewrite ?lookup_insert_ne).
  rewrite (resolve_end_datetime_not_completed (delete "runSchedule" extra_fields)
             status) by (by rewrite ?lookup_delete_ne).
  done.
Qed.

(** A completed campaign whose "runSchedule" is null, a number or a
    boolean, or whose schedule has an "end" that is null, a string, a
    list or a mapping, makes [stream_slices] raise [TypeError]. *)
Theorem stream_slices_malformed_schedule (fuel : nat) (extra_fields : gmap string value)
    (run_schedule : value) :
  extra_fields !! "status" = Some (VStr "COMPLETED") ->
  extra_fields !! "runSchedule" = Some run_schedule ->
  match run_schedule with
  | VNone | VBool _ | VInt _ => True
  | VDict schedule =>
      match schedule !! "end" with
      | Some (VNone | VStr _ | VList _ | VDict _) => True
      | _ => False
      end
  | _ => False
  end ->
  stream_slices fuel extra_fields = Some (Raise TypeError).
Proof.
  intros Hst Hrs Hbad. apply resolve_end_datetime_Raise_stream_slices.
  unfold resolve_end_datetime, choose_end.
  rewrite (getitem_Some _ _ _ Hst), (getitem_Some _ _ _ Hrs). simpl.
  destruct run_schedule as [| | | | |schedule]; try done. simpl.
  destruct (schedule !! "end") as [v|] eqn:Hend; [|done].
  rewrite bool_decide_eq_true_2 by eauto. simpl.
  rewrite (getitem_Some _ _ _ Hend). by destruct v.
Qed.

(** No slice of a campaign starts or ends after the end date that was
    resolved for it: for a completed campaign with a schedule end, none
    goes beyond that end. *)
Theorem stream_slices_within_end (fuel : nat) (extra_fields : gmap string value)
    (slices : list date_slice) :
  stream_slices fuel extra_fields = Some (Ok slices) ->
  exists end_datetime,
    resolve_end_datetime extra_fields = Ok end_datetime /\
    Forall (fun sl => ((window sl).1 <= end_datetime)%Z /\
                      ((window sl).2 <= end_datetime)%Z) slices.
Proof.
  unfold stream_slices.
  destruct (resolve_end_datetime extra_fields) as [end_datetime|e]; [|done].
  intros Hrun. exists end_datetime. split; [done|].
  destruct (_ <? _)%Z; [by eapply partition_daterange_within|].
  injection Hrun as <-. constructor.
Qed.

End CampaignMore.

Section PartitionCursorMore.
Import Py PartitionCursor.
Context `{PartitionCursor.Env}.

(** When the limit check passes for a partition that is tracked already,
    its cursor is kept, with the partition bound to it anew: no cursor is
    made, the state to migrate from is not used, and the same partitions
    are tracked as before. *)
Theorem generate_slices_reuses_cursor (p : StreamSlice unit) (st : store) (cursor : Cursor) :
  _ensure_partition_limit st = Ok tt ->
  _cursor_per_partition st !! _to_partition_key (partition p) = Some cursor ->
  let st' := (generate_slices_from_partition p st).2 in
  _cursor_per_partition st'
  = <[_to_partition_key (partition p) := set_partition cursor p]> (_cursor_per_partition st) /\
  dom (_cursor_per_partition st') = dom (_cursor_per_partition st) /\
  size (_cursor_per_partition st') = size (_cursor_per_partition st).
Proof.
  intros Hlimit Hcur. unfold generate_slices_from_partition.
  rewrite Hlimit, Hcur. simpl.
  assert (Hdom : dom (<[_to_partition_key (partition p) := set_partition cursor p]>
                        (_cursor_per_partition st)) = dom (_cursor_per_partition st)).
  { apply dom_insert_lookup_L. eauto. }
  split; [done|]. split; [done|].
  by rewrite <- !size_dom, Hdom.
Qed.

(** When the limit check passes for a partition that is not tracked, a
    cursor is made for it, from the state to migrate from if there is
    one and from the no-cursor state otherwise, bound to the partition
    and tracked: one more partition is tracked than before. *)
Theorem generate_slices_creates_cursor (p : StreamSlice unit) (st : store) :
  _ensure_partition_limit st = Ok tt ->
  _cursor_per_partition st !! _to_partition_key (partition p) = None ->
  let st' := (generate_slices_from_partition p st).2 in
  let state := if bool_decide (_state_to_migrate_from st = ∅)
               then _NO_CURSOR_STATE else _state_to_migrate_from st in
  _cursor_per_partition st' !! _to_partition_key (partition p)
  = Some (set_partition (_create_cursor state) p) /\
  size (_cursor_per_partition st') = S (size (_cursor_per_partition st)).
Proof.
  intros Hlimit Hnew. unfold generate_slices_from_partition, truthy.
  rewrite Hlimit, Hnew. simpl. split.
  - rewrite lookup_insert_eq. by case_bool_decide.
  - rewrite insert_insert_eq. by rewrite map_size_insert_None.
Qed.

(** Whether the call raises or not, the cursors of the other partitions
    and the state to migrate from are left as they were. *)
Theorem generate_slices_frame (p : StreamSlice unit) (st : store) (key : string) :
  key <> _to_partition_key (partition p) ->
  let st' := (generate_slices_from_partition p st).2 in
  _cursor_per_partition st' !! key = _cursor_per_partition st !! key /\
  _state_to_migrate_from st' = _state_to_migrate_from st.
Proof.
  intros Hne. unfold generate_slices_from_partition.
  destruct (_ensure_partition_limit st); [|done].
  destruct (_cursor_per_partition st !! _to_partition_key (partition p)); simpl;
    by rewrite ?lookup_insert_ne.
Qed.


End PartitionCursorMore.

Section ExtractorMore.
Import Py Extractor.
Context `{Extractor.Env}.

Lemma convert_item_dom item (record out : gmap string value) :
  convert_item item record = Ok out -> dom out = dom record.
Proof.
  intros Hrun. destruct (convert_item_spec _ _ _ Hrun) as [_ Hat].
  destruct (record !! item) as [v|] eqn:Hv; [|by subst].
  destruct (is_None v); [by subst|].
  destruct Hat as (s & _ & ->). apply dom_insert_lookup_L. eauto.
Qed.

(** Normalising a record neither adds nor removes a field. *)
Theorem date_time_to_rfc3339_keeps_keys (record out : gmap string value) :
  _date_time_to_rfc3339 record = Ok out -> dom out = dom record.
Proof.
  unfold _date_time_to_rfc3339.
  destruct (convert_item "lastModified" record) as [r1|e] eqn:H1; simpl; [|done].
  intros H2. by rewrite (convert_item_dom _ _ _ H2), (convert_item_dom _ _ _ H1).
Qed.

(** A "lastModified" that cannot be parsed ends the call with the
    parser's exception, whatever "created" is; with a "lastModified"
    that is absent or null, a "created" that cannot be parsed does. *)
Theorem date_time_to_rfc3339_raises (record : gmap string value) (v : value) (e : exn) :
  v <> VNone -> parse_to_rfc3339 v = Raise e ->
  (record !! "lastModified" = Some v -> _date_time_to_rfc3339 record = Raise e) /\
  (record !! "created" = Some v ->
   (record !! "lastModified" = None \/ record !! "lastModified" = Some VNone) ->
   _date_time_to_rfc3339 record = Raise e).
Proof.
  intros Hv He.
  assert (Hn : is_None v = false) by by destruct v.
  unfold _date_time_to_rfc3339, convert_item. split.
  - intros ->. by rewrite Hn, He.
  - intros Hcr [-> | ->]; simpl; by rewrite Hcr, Hn, He.
Qed.

Context `{Extractor.Source}.

Lemma normalize_each_prefix records failure : forall yielded e,
  normalize_each records failure = (yielded, e) ->
  Forall2 (fun r y => _date_time_to_rfc3339 r = Ok y)
          (take (length yielded) records) yielded /\
  (length yielded = length records -> e = failure) /\
  ((length yielded < length records)%nat ->
   exists r err, records !! length yielded = Some r /\
                 _date_time_to_rfc3339 r = Raise err /\ e = Some err).
Proof.
  induction records as [|r rest IH]; intros yielded e Hrun; simpl in Hrun.
  - injection Hrun as <- <-. simpl. split; [constructor|]. split; [done | lia].
  - destruct (_date_time_to_rfc3339 r) as [r'|err] eqn:Hr.
    + destruct (normalize_each rest failure) as [ys e'] eqn:Hrest.
      injection Hrun as <- <-. destruct (IH _ _ eq_refl) as (Hpre & Hall & Hstop).
      simpl. split; [by constructor|]. split.
      * intros Hlen. apply Hall. lia.
      * intros Hlen. apply Hstop. lia.
    + injection Hrun as <- <-. simpl. split; [constructor|]. split; [done|].
      intros _. by exists r, err.
Qed.

(** [extract_records] yields, in order, the normalised form of the
    records that [transform_data] gives, up to the first one that cannot
    be normalised, whose exception ends it; when all can, it yields one
    record for each and ends as [transform_data] ends. *)
Theorem extract_records_prefix (body : gmap string value)
    (yielded : list (gmap string value)) (e : option exn) :
  extract_records body = (yielded, e) ->
  let records := (transform_data (default VNone (body !! "elements"))).1 in
  let failure := (transform_data (default VNone (body !! "elements"))).2 in
  Forall2 (fun r y => _date_time_to_rfc3339 r = Ok y)
          (take (length yielded) records) yielded /\
  (length yielded = length records -> e = failure) /\
  ((length yielded < length records)%nat ->
   exists r err, records !! length yielded = Some r /\
                 _date_time_to_rfc3339 r = Raise err /\ e = Some err).
Proof.
  unfold extract_records.
  destruct (transform_data (default VNone (body !! "elements"))) as [records failure].
  apply normalize_each_prefix.
Qed.

End ExtractorMore.

Section RetrieverMore.
Import Py Retriever.
Context `{Retriever.Env} `{Selector.Env}.

Lemma merge_fragments_well_keyed fragments : forall m m',
  merge_fragments fragments m = Ok m' -> well_keyed m -> well_keyed m'.
Proof.
  induction fragments as [|r frs IH]; intros m m' Hrun Hm; simpl in Hrun.
  - by injection Hrun as <-.
  - destruct (merge_key r) as [k|] eqn:Hk; [|done]. simpl in Hrun.
    eapply IH; [exact Hrun|]. by apply update_at_well_keyed.
Qed.

Lemma read_chunks_well_keyed partition chunks : forall m m',
  read_chunks partition chunks m = Ok m' -> well_keyed m -> well_keyed m'.
Proof.
  induction chunks as [|c chunks IH]; intros m m' Hrun Hm; simpl in Hrun.
  - by injection Hrun as <-.
  - destruct (as_mapping c) as [d|]; [|done]. simpl in Hrun.
    unfold updated_stream_slice in Hrun. case_bool_decide; [|done]. simpl in Hrun.
    destruct (fetch partition d) as [frs failure].
    destruct (merge_fragments frs m) as [m1|] eqn:Hm1; [|done]. simpl in Hrun.
    destruct failure; [done|].
    eapply IH; [exact Hrun|]. by eapply merge_fragments_well_keyed.
Qed.

(** The records of a slice that is read to its end have merge keys, and
    no two of them have the same. *)
Theorem read_records_distinct_keys
    (transformations : list Selector.entry)
    (stream_slice : PartitionCursor.StreamSlice (gmap string value))
    (emitted : list (gmap string value)) :
  (read_records transformations stream_slice).1 = (emitted, None) ->
  exists keys,
    Forall2 (fun record key => merge_key record = Ok key) emitted keys /\
    NoDup keys.
Proof.
  unfold read_records.
  destruct (Selector._apply_transformations transformations); [|done].
  destruct (field_date_chunks _) as [chunks|]; [|done]. simpl.
  destruct (read_chunks _ chunks []) as [m|] eqn:Hm; [|done].
  intros [= <-].
  destruct (read_chunks_well_keyed _ _ _ _ Hm well_keyed_nil) as [Hnd Hall].
  exists (map fst m). split; [|done].
  apply Forall2_fmap, Forall_Forall2_diag. exact Hall.
Qed.

Lemma covers_update_at key record m fragment :
  covers m fragment -> covers (update_at key record m) fragment.
Proof.
  intros (k & d & Hk & Hd & Hf).
  assert (Hex : exists d', lookup_merged k (update_at key record m) = Some d' /\
                  forall f, is_Some (d !! f) -> is_Some (d' !! f)).
  { destruct (decide (key = k)) as [->|Hne].
    - rewrite lookup_update_at_eq, Hd. eexists. split; [done|]. simpl. intros f Hdf.
      rewrite lookup_union. destruct (record !! f), Hdf as [? ->]; simpl; eauto.
    - rewrite lookup_update_at_ne by done. eauto. }
  destruct Hex as (d' & Hd' & Hmono). exists k, d'. eauto.
Qed.

Lemma covers_self key record m :
  merge_key record = Ok key -> covers (update_at key record m) record.
Proof.
  intros Hk. exists key. eexists. split; [done|].
  split; [apply lookup_update_at_eq|].
  intros f [v Hv]. rewrite (lookup_union_Some_l _ _ _ _ Hv). eauto.
Qed.

Lemma merge_fragments_covers fragments : forall m m',
  merge_fragments fragments m = Ok m' ->
  (forall r, covers m r -> covers m' r) /\
  (forall r, r ∈ fragments -> covers m' r).
Proof.
  induction fragments as [|r0 frs IH]; intros m m' Hrun; simpl in Hrun.
  - injection Hrun as <-. split; [done|]. by intros r ?%elem_of_nil.
  - destruct (merge_key r0) as [k|] eqn:Hk; [|done]. simpl in Hrun.
    destruct (IH _ _ Hrun) as [Hkeep Hnew]. split.
    + intros r Hr. by apply Hkeep, covers_update_at.
    + intros r [->|Hin]%elem_of_cons; [|by apply Hnew].
      by apply Hkeep, covers_self.
Qed.

Lemma read_chunks_covers partition chunks : forall m m',
  read_chunks partition chunks m = Ok m' ->
  (forall r, covers m r -> covers m' r) /\
  (forall chunk r, VDict chunk ∈ chunks -> r ∈ (fetch partition chunk).1 -> covers m' r).
Proof.
  induction chunks as [|c chunks IH]; intros m m' Hrun; simpl in Hrun.
  - injection Hrun as <-. split; [done|]. by intros chunk r ?%elem_of_nil.
  - destruct (as_mapping c) as [d|] eqn:Hc; [|done]. simpl in Hrun.
    unfold updated_stream_slice in Hrun. case_bool_decide; [|done]. simpl in Hrun.
    destruct (fetch partition d) as [frs failure] eqn:Hfetch.
    destruct (merge_fragments frs m) as [m1|] eqn:Hm1; [|done]. simpl in Hrun.
    destruct failure; [done|].
    destruct (merge_fragments_covers _ _ _ Hm1) as [Hkeep1 Hnew1].
    destruct (IH _ _ Hrun) as [Hkeep Hnew]. split.
    + intros r Hr. by apply Hkeep, Hkeep1.
    + intros chunk r [Heq|Hin]%elem_of_cons Hr; [|by eapply Hnew].
      subst c. simpl in Hc. injection Hc as <-. rewrite Hfetch in Hr.
      by apply Hkeep, Hnew1.
Qed.

Lemma lookup_merged_elem key m d :
  lookup_merged key m = Some d -> (key, d) ∈ m.
Proof.
  induction m as [|[k d0] m IH]; simpl; [done|].
  destruct (decide (k = key)) as [->|Hne].
  - intros [= ->]. apply elem_of_cons. by left.
  - intros Hd. apply elem_of_cons. right. by apply IH.
Qed.

(** When a slice is read to its end, every fragment that any of its
    chunks returned is in one of the records: the record has the
    fragment's merge key and every field of the fragment. *)
Theorem read_records_loses_no_field
    (transformations : list Selector.entry)
    (stream_slice : PartitionCursor.StreamSlice (gmap string value))
    (chunks : list value) (emitted : list (gmap string value))
    (chunk fragment : gmap string value) :
  field_date_chunks (PartitionCursor.cursor_slice stream_slice) = Ok chunks ->
  (read_records transformations stream_slice).1 = (emitted, None) ->
  VDict chunk ∈ chunks ->
  fragment ∈ (fetch (PartitionCursor.partition stream_slice) chunk).1 ->
  exists record,
    record ∈ emitted /\ merge_key record = merge_key fragment /\
    forall f, is_Some (fragment !! f) -> is_Some (record !! f).
Proof.
  intros Hchunks. unfold read_records.
  destruct (Selector._apply_transformations transformations); [|done].
  rewrite Hchunks. simpl.
  destruct (read_chunks _ chunks []) as [m|] eqn:Hm; [|done].
  intros [= <-] Hin Hfr.
  destruct (read_chunks_covers _ _ _ _ Hm) as [_ Hnew].
  destruct (Hnew _ _ Hin Hfr) as (k & d & Hk & Hd & Hf).
  destruct (read_chunks_well_keyed _ _ _ _ Hm well_keyed_nil) as [_ Hall].
  apply lookup_merged_elem in Hd.
  exists d. split; [|split; [|done]].
  - apply list_elem_of_fmap. by exists (k, d).
  - rewrite Hk. rewrite Forall_forall in Hall. exact (Hall _ Hd).
Qed.

Lemma merge_fragments_first_unkeyed before record after e : forall m,
  Forall (fun r => is_ok (merge_key r) = true) before ->
  merge_key record = Raise e ->
  merge_fragments (before ++ record :: after) m = Raise e.
Proof.
  intros m Hbefore He. revert m.
  induction Hbefore as [|r rs Hr _ IH]; intros m; simpl.
  - by rewrite He.
  - destruct (merge_key r); [apply IH | done].
Qed.

(** When the transformations can be installed and the first chunk has
    no key of the partition, a fragment of that chunk without
    "end_date", or else without "pivotValues", ends the read with a
    [KeyError] for that field as soon as the fragments before it are
    merged: no record is yielded. *)
Theorem read_records_unkeyed_fragment
    (transformations installed : list Selector.entry)
    (stream_slice : PartitionCursor.StreamSlice (gmap string value))
    (chunk : gmap string value) (rest : list value)
    (before after : list (gmap string value)) (fragment : gmap string value) :
  Selector._apply_transformations transformations = Ok installed ->
  field_date_chunks (PartitionCursor.cursor_slice stream_slice) = Ok (VDict chunk :: rest) ->
  dom (PartitionCursor.partition stream_slice) ∩ dom chunk = ∅ ->
  (fetch (PartitionCursor.partition stream_slice) chunk).1 = before ++ fragment :: after ->
  Forall (fun r => is_ok (merge_key r) = true) before ->
  fragment !! "end_date" = None \/ fragment !! "pivotValues" = None ->
  read_records transformations stream_slice
  = (([], Some (KeyError (match fragment !! "end_date" with
                          | None => "end_date"
                          | Some _ => "pivotValues"
                          end))), installed).
Proof.
  intros Hinstall Hchunks Hdisj Hfetch Hbefore Hmiss.
  unfold read_records. rewrite Hinstall, Hchunks. simpl.
  unfold updated_stream_slice. rewrite bool_decide_eq_true_2 by done. simpl.
  destruct (fetch _ chunk) as [frs failure]. simpl in Hfetch. subst frs.
  rewrite (merge_fragments_first_unkeyed before fragment after
             (KeyError (match fragment !! "end_date" with
                        | None => "end_date" | Some _ => "pivotValues" end))); [done|done|].
  unfold merge_key, getitem.
  destruct (fragment !! "end_date"); simpl; [|done].
  destruct Hmiss as [?| ->]; done.
Qed.

Lemma union_agree_comm (r1 r2 d : gmap string value) :
  (forall f v1 v2, r1 !! f = Some v1 -> r2 !! f = Some v2 -> v1 = v2) ->
  r2 ∪ (r1 ∪ d) = r1 ∪ (r2 ∪ d).
Proof.
  intros Hagree. apply map_eq. intros f. rewrite !lookup_union.
  destruct (r1 !! f) as [v1|] eqn:H1, (r2 !! f) as [v2|] eqn:H2; simpl;
    try by destruct (d !! f).
  rewrite (Hagree f v1 v2 H1 H2). by destruct (d !! f).
Qed.

Lemma update_at_agree_comm key r1 r2 m :
  (forall f v1 v2, r1 !! f = Some v1 -> r2 !! f = Some v2 -> v1 = v2) ->
  update_at key r2 (update_at key r1 m) = update_at key r1 (update_at key r2 m).
Proof.
  intros Hagree. induction m as [|[k d] m IH]; simpl.
  - rewrite !decide_True by done. by rewrite union_agree_comm.
  - destruct (decide (k = key)) as [->|Hne]; simpl.
    + rewrite !decide_True by done. by rewrite union_agree_comm.
    + rewrite !decide_False by done. by rewrite IH.
Qed.

(** Two fragments with the same merge key that agree on the fields they
    share can be merged in either order: the merged records are the
    same. *)
Theorem merge_fragments_order (r1 r2 : gmap string value) (m : merged) :
  merge_key r1 = merge_key r2 ->
  (forall f v1 v2, r1 !! f = Some v1 -> r2 !! f = Some v2 -> v1 = v2) ->
  merge_fragments [r1; r2] m = merge_fragments [r2; r1] m.
Proof.
  intros Hkey Hagree. simpl. rewrite Hkey.
  destruct (merge_key r2) as [k|]; simpl; [|done].
  by rewrite update_at_agree_comm.
Qed.

End RetrieverMore.

Section SelectorMore.
Import Py Selector.
Context `{Selector.Env}.

Lemma build_all_length transformations : forall built,
  build_all transformations = Ok built ->
  length built = length (List.filter is_declared transformations).
Proof.
  induction transformations as [|[d|t] ts IH]; intros built Hrun; simpl in *.
  - by injection Hrun as <-.
  - destruct (iterate _) as [fields|]; [|done]. simpl in Hrun.
    destruct (added_fields fields) as [definitions|]; [|done]. simpl in Hrun.
    destruct (AddFields definitions) as [t|]; [|done]. simpl in Hrun.
    destruct (build_all ts) as [built'|]; [|done]. simpl in Hrun.
    injection Hrun as <-. simpl. by rewrite (IH _ eq_refl).
  - by apply IH.
Qed.

Lemma build_all_objects (objects : list Transformation) :
  build_all (map Built objects) = Ok [].
Proof. induction objects as [|t ts IH]; simpl; done. Qed.

Lemma build_all_no_dict transformations :
  List.filter is_declared transformations = [] ->
  build_all transformations = Ok [].
Proof.
  induction transformations as [|[d|t] ts IH]; simpl; [done | done | exact IH].
Qed.

(** Installing the transformations a second time changes nothing: the
    call can be made for every slice that is read. *)
Theorem apply_transformations_idempotent (transformations installed : list entry) :
  _apply_transformations transformations = Ok installed ->
  _apply_transformations installed = Ok installed.
Proof.
  unfold _apply_transformations.
  destruct (build_all transformations) as [[|t built]|] eqn:Hb; simpl; [| |done].
  - intros [= <-]. by rewrite Hb.
  - intros [= <-]. pose proof (build_all_objects (t :: built)) as Hobjects.
    simpl in Hobjects |- *. by rewrite Hobjects.
Qed.

Lemma build_all_built_from transformations : forall built,
  build_all transformations = Ok built ->
  Forall2 built_from (declarations transformations) built.
Proof.
  induction transformations as [|[d|t] ts IH]; intros built Hrun; simpl in *.
  - injection Hrun as <-. constructor.
  - destruct (iterate _) as [fields|] eqn:Hfields; [|done]. simpl in Hrun.
    destruct (added_fields fields) as [definitions|] eqn:Hdefs; [|done]. simpl in Hrun.
    destruct (AddFields definitions) as [t|] eqn:Ht; [|done]. simpl in Hrun.
    destruct (build_all ts) as [built'|]; [|done]. simpl in Hrun.
    injection Hrun as <-. constructor; [|by apply IH].
    by exists fields, definitions.
  - by apply IH.
Qed.

(** A list without a dict is left as it is, whatever it holds. As soon
    as the list has a dict, what is installed is, in the order of the
    dicts, the [AddFields] made of the fields that each dict declares,
    and nothing else: the objects that were in the list beside the dicts
    are dropped. *)
Theorem apply_transformations_replaces (transformations : list entry) :
  (List.filter is_declared transformations = [] ->
   _apply_transformations transformations = Ok transformations) /\
  (forall installed,
     List.filter is_declared transformations <> [] ->
     _apply_transformations transformations = Ok installed ->
     (exists built,
        installed = map Built built /\
        Forall2 built_from (declarations transformations) built) /\
     List.filter is_declared installed = [] /\
     length installed = length (List.filter is_declared transformations)).
Proof.
  unfold _apply_transformations. split.
  - intros Hnone. by rewrite (build_all_no_dict _ Hnone).
  - intros installed Hsome.
    destruct (build_all transformations) as [built|] eqn:Hb; simpl; [|done].
    pose proof (build_all_length _ _ Hb) as Hlen.
    pose proof (build_all_built_from _ _ Hb) as Hfrom.
    destruct built as [|t built].
    + destruct (List.filter is_declared transformations); [done | discriminate].
    + intros [= <-]. split; [by exists (t :: built)|].
      split; [|simpl in *; by rewrite length_map].
      clear. simpl. induction built as [|t' l IH]; simpl; done.
Qed.

(** A declared field that is not a mapping, and a mapping without
    "path", end the call with [TypeError] and [KeyError]: nothing is
    installed. *)
Theorem apply_transformations_bad_field (d : gmap string value) (field : value)
    (fields : list value) (rest : list entry) :
  d !! "fields" = Some (VList (field :: fields)) ->
  match field with
  | VDict f => f !! "path" = None
  | _ => True
  end ->
  _apply_transformations (Declared d :: rest)
  = Raise (match field with VDict _ => KeyError "path" | _ => TypeError end).
Proof.
  intros Hd Hbad. unfold _apply_transformations. simpl. rewrite Hd. simpl.
  unfold added_field, subscript, getitem.
  destruct field as [| | | | |f]; try done. by rewrite Hbad.
Qed.

End SelectorMore.

Section HttpClientMore.
Import Py HttpClient.

Local Open Scope string_scope.

Lemma in_string_app c a b : in_string c (a ++ b) = in_string c a || in_string c b.
Proof.
  induction a as [|c' a IH]; simpl; [done|]. by rewrite IH, orb_assoc.
Qed.

Lemma all_chars_app p a b : all_chars p (a ++ b) = all_chars p a && all_chars p b.
Proof.
  induction a as [|c a IH]; simpl; [done|]. by rewrite IH, andb_assoc.
Qed.

Lemma spaces_to_plus_app a b :
  spaces_to_plus (a ++ b) = spaces_to_plus a ++ spaces_to_plus b.
Proof. induction a as [|c a IH]; simpl; [done|]. by rewrite IH. Qed.

Lemma hex_digit_cases n :
  in_string (hex_digit n) "0123456789ABCDEF" = true.
Proof.
  unfold hex_digit. generalize (N.to_nat n). intros k.
  do 16 (destruct k as [|k]; [reflexivity|]). reflexivity.
Qed.

Lemma hex_digit_safe n : in_string (hex_digit n) ALWAYS_SAFE = true.
Proof.
  pose proof (hex_digit_cases n) as Hn. revert Hn. generalize (hex_digit n). intros c.
  intros Hc. simpl in Hc. rewrite !orb_true_iff, !Ascii.eqb_eq in Hc.
  repeat (destruct Hc as [->|Hc]; [reflexivity|]). done.
Qed.

Lemma hex_digit_not_space n : Ascii.eqb (hex_digit n) " " = false.
Proof.
  pose proof (hex_digit_cases n) as Hn. revert Hn. generalize (hex_digit n). intros c.
  intros Hc. simpl in Hc. rewrite !orb_true_iff, !Ascii.eqb_eq in Hc.
  repeat (destruct Hc as [->|Hc]; [reflexivity|]). done.
Qed.

Lemma spaces_to_plus_percent_encode c :
  spaces_to_plus (percent_encode c) = percent_encode c.
Proof.
  unfold percent_encode. simpl. by rewrite !hex_digit_not_space.
Qed.

Lemma quote_encode_chars safe s :
  in_string " " s = false -> quote s safe = encode_chars safe s.
Proof.
  induction s as [|c s IH]; cbn [in_string quote encode_chars]; [done|].
  rewrite orb_false_iff. intros [Hc Hs]. rewrite IH by done.
  unfold encode_char. rewrite Ascii.eqb_sym in Hc. by rewrite Hc.
Qed.

Lemma quote_spaces_encode_chars safe s :
  in_string " " safe = false ->
  spaces_to_plus (quote s (safe ++ " ")) = encode_chars safe s.
Proof.
  intros Hsafe. induction s as [|c s IH]; cbn [quote encode_chars]; [done|].
  rewrite spaces_to_plus_app, IH. f_equal.
  unfold encode_char. rewrite in_string_app. cbn [in_string]. rewrite orb_false_r.
  destruct (Ascii.eqb_spec c " ") as [->|Hne].
  - rewrite !orb_true_r. reflexivity.
  - rewrite orb_false_r.
    destruct (in_string c ALWAYS_SAFE || in_string c safe).
    + cbn [spaces_to_plus]. by destruct (Ascii.eqb_spec c " ").
    + apply spaces_to_plus_percent_encode.
Qed.

(** Character by character, a key or a value goes into the query with
    its spaces as plus signs, its letters, digits and the characters
    _ . - ~ ( ) : , % as they are, and every other character as a
    percent sign and two hexadecimal digits. *)
Theorem quote_plus_by_character (s : string) :
  quote_plus s "():,%" = encode_chars "():,%" s.
Proof.
  unfold quote_plus. destruct (in_string " " s) eqn:Hs.
  - by apply quote_spaces_encode_chars.
  - by apply quote_encode_chars.
Qed.

Lemma encode_chars_fixed safe s :
  all_chars (fun c => in_string c ALWAYS_SAFE || in_string c safe) s = true ->
  in_string " " safe = false ->
  encode_chars safe s = s.
Proof.
  intros Hall Hsafe. induction s as [|c s IH]; cbn [all_chars encode_chars] in *; [done|].
  apply andb_true_iff in Hall as [Hc Hall]. rewrite IH by done.
  unfold encode_char. rewrite Hc.
  destruct (Ascii.eqb_spec c " ") as [->|_]; [|done].
  rewrite Hsafe in Hc. discriminate.
Qed.

(** A text made of letters, digits and the characters _ . - ~ ( ) : , %
    only, such as a restli list or a value that is percent-encoded
    already, goes into the query unchanged. *)
Theorem quote_plus_keeps_reserved (s : string) :
  all_chars (fun c => in_string c ALWAYS_SAFE || in_string c "():,%") s = true ->
  quote_plus s "():,%" = s.
Proof.
  intros Hall. unfold quote_plus.
  destruct (in_string " " s) eqn:Hs.
  - rewrite quote_spaces_encode_chars by done. by apply encode_chars_fixed.
  - rewrite quote_encode_chars by done. by apply encode_chars_fixed.
Qed.

Lemma query_char_mark safe c : in_string c "%+=&" = true -> query_char safe c = true.
Proof. unfold query_char. intros ->. apply orb_true_r. Qed.

Lemma query_char_safe safe c :
  in_string c ALWAYS_SAFE || in_string c safe = true -> query_char safe c = true.
Proof. unfold query_char. by intros ->. Qed.

Lemma encode_chars_query_chars safe s :
  all_chars (query_char safe) (encode_chars safe s) = true.
Proof.
  induction s as [|c s IH]; cbn [encode_chars all_chars]; [done|].
  rewrite all_chars_app, IH, andb_true_r. unfold encode_char.
  destruct (Ascii.eqb c " ").
  { cbn [all_chars]. by rewrite query_char_mark. }
  destruct (in_string c ALWAYS_SAFE || in_string c safe) eqn:Hin.
  - cbn [all_chars]. by rewrite query_char_safe.
  - unfold percent_encode. cbn [all_chars].
    rewrite query_char_mark by reflexivity.
    rewrite !query_char_safe; [done|by rewrite hex_digit_safe..].
Qed.

Lemma concat_query_chars safe (parts : list string) :
  Forall (fun p => all_chars (query_char safe) p = true) parts ->
  all_chars (query_char safe) (String.concat "&" parts) = true.
Proof.
  induction 1 as [|p ps Hp _ IH]; [done|].
  destruct ps as [|p' ps']; [done|].
  change (String.concat "&" (p :: p' :: ps'))
    with (p ++ String "&" (String.concat "&" (p' :: ps'))).
  rewrite all_chars_app, Hp. cbn [all_chars andb].
  by rewrite IH, query_char_mark.
Qed.

(** The query string that [urlencode] makes holds nothing but letters,
    digits and the characters _ . - ~ ( ) : , % + = & , whatever the
    keys and values are. *)
Theorem urlencode_alphabet (query : list (string * string)) :
  all_chars (query_char "():,%") (urlencode query "():,%") = true.
Proof.
  unfold urlencode. apply concat_query_chars, Forall_map, Forall_forall.
  intros [k v] _. cbn [fst snd]. rewrite !quote_plus_by_character.
  rewrite !all_chars_app, !encode_chars_query_chars. cbn [all_chars andb].
  by rewrite query_char_mark.
Qed.

Lemma encode_chars_safe_chars safe s :
  in_string "%" safe = true -> in_string " " s = false ->
  all_chars (fun c => in_string c ALWAYS_SAFE || in_string c safe)
            (encode_chars safe s) = true.
Proof.
  intros Hpercent.
  induction s as [|c s IH]; cbn [in_string encode_chars all_chars]; [done|].
  rewrite orb_false_iff. intros [Hc Hs]. rewrite all_chars_app, IH, andb_true_r by done.
  unfold encode_char. rewrite Ascii.eqb_sym in Hc. rewrite Hc.
  destruct (in_string c ALWAYS_SAFE || in_string c safe) eqn:Hin.
  - cbn [all_chars]. by rewrite Hin.
  - unfold percent_encode. cbn [all_chars].
    by rewrite Hpercent, !hex_digit_safe, orb_true_r.
Qed.

(** Encoding a text without a space a second time changes nothing: a
    query parameter can pass through the client more than once. *)
Theorem quote_plus_idempotent (s : string) :
  in_string " " s = false ->
  quote_plus (quote_plus s "():,%") "():,%" = quote_plus s "():,%".
Proof.
  intros Hs. apply quote_plus_keeps_reserved.
  rewrite quote_plus_by_character. by apply encode_chars_safe_chars.
Qed.

End HttpClientMore.

Section HttpClientBody.
Import Py HttpClient.
Context `{HttpClient.Env}.

(** The call raises [RequestBodyException] exactly when the method, in
    upper case, is one that carries a body and both a JSON body and body
    data are given; an empty mapping or an empty string is not given. *)
Theorem create_prepared_request_conflict
    (http_method url : string) (dedupe_query_params : bool)
    (headers params : option (list (string * string)))
    (json : option (gmap string value)) (data : option body_data) :
  _create_prepared_request http_method url dedupe_query_params headers params json data
  = RequestBodyException
  <-> upper http_method ∈ BODY_REQUEST_METHODS /\
      json_given json = true /\ data_given data = true.
Proof.
  unfold _create_prepared_request. cbv zeta. case_bool_decide as Hm.
  - destruct (json_given json), (data_given data); simpl; split;
      try done; try (by intros (_ & ? & ?)).
  - split; [done | by intros (? & _)].
Qed.

(** A request that is prepared carries at most one body: the JSON body
    when it is given, else the body data when they are given, and
    neither for a method that carries no body, even when both were
    given. Its query string is the encoding of the parameters. *)
Theorem create_prepared_request_body
    (http_method url : string) (dedupe_query_params : bool)
    (headers params : option (list (string * string)))
    (json : option (gmap string value)) (data : option body_data)
    (args : request_args) :
  _create_prepared_request http_method url dedupe_query_params headers params json data
  = Prepared args ->
  let carries_body := bool_decide (upper http_method ∈ BODY_REQUEST_METHODS) in
  HttpClient.json args = (if carries_body && json_given json then json else None) /\
  HttpClient.data args
  = (if carries_body && negb (json_given json) && data_given data then data else None) /\
  (HttpClient.json args = None \/ HttpClient.data args = None) /\
  HttpClient.params args
  = urlencode (if dedupe_query_params then _dedupe_query_params url params
               else default [] params) "():,%".
Proof.
  unfold _create_prepared_request. cbv zeta. case_bool_decide as Hm; simpl.
  - destruct (json_given json), (data_given data); simpl; intros [= <-]; simpl; auto.
  - intros [= <-]. simpl. auto.
Qed.

End HttpClientBody.

Section DateCursorMoreSample.
Import Py DateCursor.
Local Open Scope Z_scope.

Lemma partition_daterange_never_overruns_witness :
  exists slices,
    @_partition_daterange sample_env 5 0 1440 720 = Some (Ok slices) /\
    Forall (fun sl => (window sl).1 <= 1440 /\ (window sl).2 <= 1440) slices.
Proof.
  destruct (@_partition_daterange sample_env 5 0 1440 720) as [[slices|e]|] eqn:Hrun.
  - exists slices. split; [reflexivity|].
    eapply Forall_impl;
      [exact (@partition_daterange_never_overruns sample_env 5 0 1440 720 slices Hrun)|].
    intros sl (Hs & He & _). split; [exact Hs | exact He].
  - vm_compute in Hrun. discriminate.
  - vm_compute in Hrun. discriminate.
Defined.

Lemma partition_daterange_descriptors_witness :
  exists slices,
    @_partition_daterange sample_env 5 0 1440 720 = Some (Ok slices) /\
    Forall (fun sl =>
      Forall2 (fun d chunk => d !! "fields" = Some (VStr (String.concat "," chunk)))
              (field_date_chunks sl)
              [["clicks"; "impressions"; "dateRange"; "pivotValues"];
               ["costInUsd"; "dateRange"; "pivotValues"]]) slices.
Proof.
  destruct (@_partition_daterange sample_env 5 0 1440 720) as [[slices|e]|] eqn:Hrun.
  - exists slices. split; [reflexivity|].
    exact (@partition_daterange_descriptors sample_env 5 0 1440 720 slices _ eq_refl Hrun).
  - vm_compute in Hrun. discriminate.
  - vm_compute in Hrun. discriminate.
Defined.

Lemma field_date_chunk_entries_witness :
  @field_date_chunk sample_env 0 696 ["clicks"; "dateRange"] !! "end_date"
  = Some (VStr "696") /\
  @field_date_chunk sample_env 0 696 ["clicks"; "dateRange"] !! "start_date"
  = Some (VStr "0").
Proof.
  destruct (@field_date_chunk_entries sample_env 0 696 ["clicks"; "dateRange"])
    as (_ & _ & _ & _ & _ & _ & Hnames).
  destruct Hnames as [Hend Hstart].
  - apply (bool_decide_unpack _). reflexivity.
  - split; [exact Hend|]. apply Hstart. apply (bool_decide_unpack _). reflexivity.
Defined.

Lemma partition_daterange_count_witness :
  exists fuel slices,
    @_partition_daterange sample_env fuel 0 1440 720 = Some (Ok slices) /\
    Z.of_nat (length slices) = 3.
Proof.
  destruct (@partition_daterange_count sample_env 0 1440 720 720)
    as (fuel & slices & Hrun & Hlen).
  - reflexivity.
  - reflexivity.
  - intros t. reflexivity.
  - lia.
  - exists fuel, slices. split; [exact Hrun | exact Hlen].
Defined.

Lemma stream_slices_ignores_schedule_witness :
  @stream_slices sample_env 5 (<["runSchedule" := VNone]> campaign_active)
  = @stream_slices sample_env 5 campaign_active /\
  @stream_slices sample_env 5 (delete "runSchedule" campaign_active)
  = @stream_slices sample_env 5 campaign_active.
Proof.
  apply (@stream_slices_ignores_schedule sample_env 5 campaign_active (VStr "ACTIVE") VNone).
  - reflexivity.
  - discriminate.
Defined.

Lemma stream_slices_malformed_schedule_witness :
  @stream_slices sample_env 5 (<["runSchedule" := VNone]> campaign_unscheduled)
  = Some (Raise TypeError) /\
  @stream_slices sample_env 5
    (<["runSchedule" := VDict (<["end" := VStr "2024-01-31"]> ∅)]> campaign_unscheduled)
  = Some (Raise TypeError).
Proof.
  split.
  - apply (@stream_slices_malformed_schedule sample_env 5 _ VNone);
      [reflexivity | reflexivity | exact I].
  - apply (@stream_slices_malformed_schedule sample_env 5 _
             (VDict (<["end" := VStr "2024-01-31"]> ∅)));
      [reflexivity | reflexivity | exact I].
Defined.

Lemma stream_slices_within_end_witness :
  exists slices,
    @stream_slices sample_env 20 campaign_open_ended = Some (Ok slices) /\
    Forall (fun sl => (window sl).1 <= 480000 /\ (window sl).2 <= 480000) slices.
Proof.
  destruct (@stream_slices sample_env 20 campaign_open_ended) as [[slices|e]|] eqn:Hrun.
  - exists slices. split; [reflexivity|].
    destruct (@stream_slices_within_end sample_env 20 campaign_open_ended slices Hrun)
      as (end_datetime & Hend & Hall).
    vm_compute in Hend. injection Hend as <-. exact Hall.
  - vm_compute in Hrun. discriminate.
  - vm_compute in Hrun. discriminate.
Defined.

End DateCursorMoreSample.

Section PartitionCursorMoreSample.
Import Py PartitionCursor.

Lemma generate_slices_reuses_cursor_witness :
  size (_cursor_per_partition
          (@generate_slices_from_partition sample_env (sample_partition "1") sample_store).2)
  = 1%nat.
Proof.
  destruct (@generate_slices_reuses_cursor sample_env (sample_partition "1") sample_store
              (∅, Some (sample_partition "1")) eq_refl eq_refl) as (_ & _ & Hsize).
  exact Hsize.
Defined.

Lemma generate_slices_creates_cursor_witness :
  size (_cursor_per_partition
          (@generate_slices_from_partition sample_env (sample_partition "2") sample_store).2)
  = 2%nat.
Proof.
  destruct (@generate_slices_creates_cursor sample_env (sample_partition "2") sample_store
              eq_refl eq_refl) as (_ & Hsize).
  exact Hsize.
Defined.

Lemma generate_slices_frame_witness :
  _cursor_per_partition
    (@generate_slices_from_partition sample_env (sample_partition "2") sample_store).2 !! "1"
  = Some (∅, Some (sample_partition "1")).
Proof.
  destruct (@generate_slices_frame sample_env (sample_partition "2") sample_store "1")
    as [Hkeep _].
  - discriminate.
  - exact Hkeep.
Defined.


End PartitionCursorMoreSample.

Section ExtractorMoreSample.
Import Py Extractor.

Lemma date_time_to_rfc3339_keeps_keys_witness :
  exists out,
    @_date_time_to_rfc3339 sample_env sample_record = Ok out /\
    dom out = dom sample_record.
Proof.
  destruct (@_date_time_to_rfc3339 sample_env sample_record) as [out|e] eqn:Hrun.
  - exists out. split; [reflexivity|].
    exact (@date_time_to_rfc3339_keeps_keys sample_env sample_record out Hrun).
  - vm_compute in Hrun. discriminate.
Defined.

Lemma date_time_to_rfc3339_raises_witness :
  @_date_time_to_rfc3339 sample_env
    (<["created" := VStr "2024-01-01"]> (<["lastModified" := VStr "yesterday"]> ∅))
  = Raise ValueError.
Proof.
  apply (proj1 (@date_time_to_rfc3339_raises sample_env _ (VStr "yesterday") ValueError
                  ltac:(discriminate) eq_refl)).
  reflexivity.
Defined.

Lemma extract_records_prefix_witness :
  exists yielded e,
    @extract_records sample_env sample_source
      (<["elements" := VList [VDict sample_record;
                              VDict (<["created" := VStr "yesterday"]> ∅);
                              VDict sample_record]]> ∅)
    = (yielded, e) /\
    Forall2 (fun r y => @_date_time_to_rfc3339 sample_env r = Ok y)
            (take (length yielded)
               [sample_record; <["created" := VStr "yesterday"]> ∅; sample_record])
            yielded.
Proof.
  destruct (@extract_records sample_env sample_source
              (<["elements" := VList [VDict sample_record;
                                      VDict (<["created" := VStr "yesterday"]> ∅);
                                      VDict sample_record]]> ∅))
    as [yielded e] eqn:Hrun.
  exists yielded, e. split; [reflexivity|].
  exact (proj1 (@extract_records_prefix sample_env sample_source _ yielded e Hrun)).
Defined.

End ExtractorMoreSample.

Section RetrieverMoreSample.
Import Py Retriever.

Lemma read_records_distinct_keys_witness :
  exists emitted keys,
    (@read_records sample_env Selector.sample_env
       [@Selector.Declared Selector.sample_env Selector.sample_declaration]
       (sample_slice [sample_chunk "clicks,dateRange,pivotValues";
                      sample_chunk "impressions,dateRange,pivotValues"])).1
    = (emitted, None) /\
    Forall2 (fun record key => @merge_key sample_env record = Ok key) emitted keys /\
    NoDup keys.
Proof.
  destruct (@read_records sample_env Selector.sample_env
              [@Selector.Declared Selector.sample_env Selector.sample_declaration]
              (sample_slice [sample_chunk "clicks,dateRange,pivotValues";
                             sample_chunk "impressions,dateRange,pivotValues"])).1
    as [emitted [e|]] eqn:Hrun.
  - vm_compute in Hrun. discriminate.
  - destruct (@read_records_distinct_keys sample_env Selector.sample_env
                [@Selector.Declared Selector.sample_env Selector.sample_declaration]
                (sample_slice [sample_chunk "clicks,dateRange,pivotValues";
                               sample_chunk "impressions,dateRange,pivotValues"])
                emitted Hrun) as (keys & Hkeys & Hnd).
    exists emitted, keys. split; [reflexivity|]. split; [exact Hkeys | exact Hnd].
Defined.

Lemma read_records_loses_no_field_witness :
  exists emitted record,
    (@read_records sample_env Selector.sample_env
       [@Selector.Declared Selector.sample_env Selector.sample_declaration]
       (sample_slice [sample_chunk "clicks,dateRange,pivotValues";
                      sample_chunk "impressions,dateRange,pivotValues"])).1
    = (emitted, None) /\
    record ∈ emitted /\ is_Some (record !! "impressions").
Proof.
  destruct (@read_records sample_env Selector.sample_env
              [@Selector.Declared Selector.sample_env Selector.sample_declaration]
              (sample_slice [sample_chunk "clicks,dateRange,pivotValues";
                             sample_chunk "impressions,dateRange,pivotValues"])).1
    as [emitted [e|]] eqn:Hrun.
  - vm_compute in Hrun. discriminate.
  - destruct (@read_records_loses_no_field sample_env Selector.sample_env
                [@Selector.Declared Selector.sample_env Selector.sample_declaration]
                (sample_slice [sample_chunk "clicks,dateRange,pivotValues";
                               sample_chunk "impressions,dateRange,pivotValues"])
                [VDict (sample_chunk "clicks,dateRange,pivotValues");
                 VDict (sample_chunk "impressions,dateRange,pivotValues")]
                emitted (sample_chunk "impressions,dateRange,pivotValues")
                (sample_fragment "impressions" 90))
      as (record & Hin & _ & Hfields).
    + reflexivity.
    + exact Hrun.
    + apply elem_of_cons. right. apply elem_of_cons. by left.
    + apply elem_of_cons. by left.
    + exists emitted, record. split; [reflexivity|]. split; [exact Hin|].
      apply Hfields. by eexists.
Defined.

Lemma read_records_unkeyed_fragment_witness :
  (@read_records sample_env_unkeyed Selector.sample_env []
     (sample_slice [sample_chunk "clicks"])).1
  = ([], Some (KeyError "end_date")).
Proof.
  assert (Hbefore : Forall (fun r => is_ok (@merge_key sample_env_unkeyed r) = true)
                           [sample_fragment "clicks" 5]) by repeat constructor.
  exact (f_equal fst
           (@read_records_unkeyed_fragment sample_env_unkeyed Selector.sample_env [] []
              (sample_slice [sample_chunk "clicks"]) (sample_chunk "clicks") []
              [sample_fragment "clicks" 5] [] (<["clicks" := VInt 6]> ∅)
              eq_refl eq_refl eq_refl eq_refl Hbefore (or_introl eq_refl))).
Defined.

Lemma merge_fragments_order_witness :
  @merge_fragments sample_env
    [sample_fragment "clicks" 5; sample_fragment "impressions" 90] []
  = @merge_fragments sample_env
      [sample_fragment "impressions" 90; sample_fragment "clicks" 5] [].
Proof.
  apply (@merge_fragments_order sample_env).
  - reflexivity.
  - intros f v1 v2 H1 H2. unfold sample_fragment in H1, H2.
    repeat (apply lookup_insert_Some in H1 as [[<- <-]|[? H1]];
            [repeat (apply lookup_insert_Some in H2 as [[? <-]|[? H2]]; [done|]); done|]).
    done.
Defined.

End RetrieverMoreSample.

Section SelectorMoreSample.
Import Py Selector.

Lemma apply_transformations_idempotent_witness :
  exists installed,
    @_apply_transformations sample_env [@Declared sample_env sample_declaration]
    = Ok installed /\
    @_apply_transformations sample_env installed = Ok installed.
Proof.
  destruct (@_apply_transformations sample_env [@Declared sample_env sample_declaration])
    as [installed|e] eqn:Hrun.
  - exists installed. split; [reflexivity|].
    exact (@apply_transformations_idempotent sample_env _ installed Hrun).
  - vm_compute in Hrun. discriminate.
Defined.

Lemma apply_transformations_replaces_witness :
  @_apply_transformations sample_env [@Built sample_env []; @Built sample_env []]
  = Ok [@Built sample_env []; @Built sample_env []] /\
  exists installed,
    @_apply_transformations sample_env
      [@Built sample_env []; @Declared sample_env sample_declaration]
    = Ok installed /\ length installed = 1%nat.
Proof.
  split.
  - apply (proj1 (@apply_transformations_replaces sample_env _)). reflexivity.
  - destruct (@_apply_transformations sample_env
                [@Built sample_env []; @Declared sample_env sample_declaration])
      as [installed|e] eqn:Hrun.
    + exists installed. split; [reflexivity|].
      destruct (proj2 (@apply_transformations_replaces sample_env
                         [@Built sample_env []; @Declared sample_env sample_declaration])
                  installed) as (_ & _ & Hlen); [discriminate | exact Hrun | exact Hlen].
    + vm_compute in Hrun. discriminate.
Defined.

Lemma apply_transformations_bad_field_witness :
  @_apply_transformations sample_env
    [@Declared sample_env (<["fields" := VList [VStr "end_date"]]> ∅)]
  = Raise TypeError /\
  @_apply_transformations sample_env
    [@Declared sample_env (<["fields" := VList [VDict (<["value" := VStr "x"]> ∅)]]> ∅)]
  = Raise (KeyError "path").
Proof.
  split.
  - apply (@apply_transformations_bad_field sample_env _ (VStr "end_date") [] []);
      [reflexivity | exact I].
  - apply (@apply_transformations_bad_field sample_env _
             (VDict (<["value" := VStr "x"]> ∅)) [] []); reflexivity.
Defined.

End SelectorMoreSample.

Section HttpClientMoreSample.
Import Py HttpClient.

Lemma quote_plus_keeps_reserved_witness :
  quote_plus "List(urn%3Ali%3AsponsoredCampaign%3A1,urn%3Ali%3AsponsoredCampaign%3A2)" "():,%"
  = "List(urn%3Ali%3AsponsoredCampaign%3A1,urn%3Ali%3AsponsoredCampaign%3A2)" /\
  quote_plus "(start:(year:2024,month:1,day:31))" "():,%"
  = "(start:(year:2024,month:1,day:31))".
Proof.
  split; apply quote_plus_keeps_reserved; reflexivity.
Defined.

Lemma quote_plus_idempotent_witness :
  quote_plus (quote_plus "a&b=c/d" "():,%") "():,%" = quote_plus "a&b=c/d" "():,%".
Proof. apply quote_plus_idempotent. reflexivity. Defined.

Lemma create_prepared_request_conflict_witness :
  @_create_prepared_request sample_env "post" "https://api.linkedin.com/rest/adAnalytics"
    false None (Some [("q", "analytics")])
    (Some (<["a" := VInt 1]> ∅)) (Some (DataStr "a=1"))
  = RequestBodyException.
Proof.
  apply (@create_prepared_request_conflict sample_env). split; [|split].
  - apply (bool_decide_unpack _). reflexivity.
  - reflexivity.
  - reflexivity.
Defined.

Lemma create_prepared_request_body_witness :
  exists args,
    @_create_prepared_request sample_env "delete" "https://api.linkedin.com/rest/x"
      false None (Some [("ids", "List(1,2)"); ("name", "a b")])
      (Some (<["a" := VInt 1]> ∅)) (Some (DataStr "a=1"))
    = Prepared args /\
    json args = None /\ data args = None /\
    params args = "ids=List(1,2)&name=a+b".
Proof.
  destruct (@_create_prepared_request sample_env "delete" "https://api.linkedin.com/rest/x"
              false None (Some [("ids", "List(1,2)"); ("name", "a b")])
              (Some (<["a" := VInt 1]> ∅)) (Some (DataStr "a=1")))
    as [args|] eqn:Hrun.
  - exists args. split; [reflexivity|].
    destruct (@create_prepared_request_body sample_env _ _ _ _ _ _ _ args Hrun)
      as (Hjson & Hdata & _ & Hparams).
    split; [exact Hjson|]. split; [exact Hdata | exact Hparams].
  - vm_compute in Hrun. discriminate.
Defined.

End HttpClientMoreSample.
